(** * Bookstore inventory manager (app.js): shallow embedding and properties

    The development follows the layout of [app.js]:
    - the JavaScript built-ins the program calls (string methods, the
      regular-expression replacements, number parsing and printing on
      IEEE-754 binary64),
    - the CSV parser [parseCSVText],
    - the currency helpers [cleanCurrency] and [formatUSD],
    - the record mappers of the three import paths,
    - the store with its search index, persistence slot and handlers.

    Strings are sequences of UTF-16 code units in the program; the model
    covers the code units below 256, one [ascii] each.

    The write to [localStorage] can throw.  The handlers [saveFromModal],
    [deleteBook], [importFile] and [loadDefaultCSV] are the runs in which
    it succeeds; [saveFromModal_run], [deleteBook_run], [importFile_run],
    [loadDefaultCSV_run] and [init] take the outcome of the write and
    stop where the source stops when it throws. *)

From Stdlib Require Import ZArith NArith String Ascii List Bool Lia.
From Stdlib Require Import SpecFloat DecimalString DecimalPos.
From stdpp Require Import base option list strings gmap.

Local Open Scope string_scope.
Local Open Scope list_scope.

(** ** Characters and string built-ins *)

Definition dquote : ascii := Ascii.ascii_of_nat 34.
Definition comma : ascii := Ascii.ascii_of_nat 44.
Definition LF : ascii := Ascii.ascii_of_nat 10.
Definition CR : ascii := Ascii.ascii_of_nat 13.

Definition code (c : ascii) : N := N_of_ascii c.

Definition in_range (lo hi : N) (c : ascii) : bool :=
  ((lo <=? code c) && (code c <=? hi))%N.

(** WhiteSpace and LineTerminator code points below 256: TAB, LF, VT, FF,
    CR, SP and NBSP. *)
Definition is_ws (c : ascii) : bool :=
  in_range 9 13 c || (code c =? 32)%N || (code c =? 160)%N.

Definition is_digit (c : ascii) : bool := in_range 48 57 c.

(** [s + ch] for a single code unit. *)
Definition snoc (s : string) (c : ascii) : string := s +:+ String c "".

Fixpoint trimStart (s : string) : string :=
  match s with
  | "" => ""
  | String c r => if is_ws c then trimStart r else s
  end.

Fixpoint trimEnd (s : string) : string :=
  match s with
  | "" => ""
  | String c r =>
      match trimEnd r with
      | "" => if is_ws c then "" else String c ""
      | r' => String c r'
      end
  end.

(** [String.prototype.trim] *)
Definition trim (s : string) : string := trimEnd (trimStart s).

Definition lower_char (c : ascii) : ascii :=
  if in_range 65 90 c || (in_range 192 222 c && negb (code c =? 215)%N)
  then ascii_of_N (code c + 32) else c.

(** [String.prototype.toLowerCase] *)
Fixpoint toLowerCase (s : string) : string :=
  match s with
  | "" => ""
  | String c r => String (lower_char c) (toLowerCase r)
  end.

(** [s.replace(/[class]/g, '')]: drop every code unit of the class. *)
Fixpoint remove_if (p : ascii -> bool) (s : string) : string :=
  match s with
  | "" => ""
  | String c r => if p c then remove_if p r else String c (remove_if p r)
  end.

Definition is_dquote (c : ascii) : bool := Ascii.eqb c dquote.
Definition is_comma (c : ascii) : bool := Ascii.eqb c comma.
Definition is_numeric_char (c : ascii) : bool :=
  is_digit c || (code c =? 46)%N || (code c =? 45)%N.

Definition letter_ci (up : N) (c : ascii) : bool :=
  ((code c =? up) || (code c =? up + 32))%N.

(** [s.replace(/KHR/ig, '')]: one left-to-right pass, matches do not
    overlap and the result is not scanned again. *)
Fixpoint remove_KHR (s : string) : string :=
  match s with
  | "" => ""
  | String a r =>
      match r with
      | String b (String c r') =>
          if letter_ci 75 a && letter_ci 72 b && letter_ci 82 c
          then remove_KHR r'
          else String a (remove_KHR r)
      | _ => String a (remove_KHR r)
      end
  end.

(** [text.split(/\r?\n/)] *)
Fixpoint split_lines_from (cur : string) (s : string) : list string :=
  match s with
  | "" => [cur]
  | String c r =>
      if Ascii.eqb c LF then cur :: split_lines_from "" r
      else
        match r with
        | String c' r' =>
            if Ascii.eqb c CR && Ascii.eqb c' LF
            then cur :: split_lines_from "" r'
            else split_lines_from (snoc cur c) r
        | "" => split_lines_from (snoc cur c) r
        end
  end.

Definition split_lines (text : string) : list string := split_lines_from "" text.

(** ** CSV parser *)

(** The loop variables of the inner [for] of [parseCSVText]. *)
Record scanner := Scanner {
  pos : nat;
  cur : string;
  inQuotes : bool;
  cols : list string
}.

Definition char_is (line : string) (i : nat) (c : ascii) : bool :=
  match String.get i line with
  | Some ch => Ascii.eqb ch c
  | None => false
  end.

(** One iteration of the loop body followed by the [i++] of the loop
    header. *)
Definition scan_step (line : string) (st : scanner) : scanner :=
  let i := pos st in
  match String.get i line with
  | None => st
  | Some ch =>
      if Ascii.eqb ch dquote then
        if inQuotes st && char_is line (i + 1) dquote
        then Scanner (i + 2) (snoc (cur st) dquote) (inQuotes st) (cols st)
        else Scanner (i + 1) (cur st) (negb (inQuotes st)) (cols st)
      else if Ascii.eqb ch comma && negb (inQuotes st)
      then Scanner (i + 1) "" (inQuotes st) (cols st ++ [cur st])
      else Scanner (i + 1) (snoc (cur st) ch) (inQuotes st) (cols st)
  end.

Fixpoint scan_loop (fuel : nat) (line : string) (st : scanner) : scanner :=
  match fuel with
  | O => st
  | S fuel' =>
      if (pos st <? String.length line)%nat
      then scan_loop fuel' line (scan_step line st)
      else st
  end.

Definition scan_line (line : string) : scanner :=
  scan_loop (String.length line) line (Scanner 0 "" false []).

Definition parse_line (line : string) : list string :=
  let st := scan_line line in cols st ++ [cur st].

Definition nonblank (l : string) : bool :=
  negb (String.eqb (trim l) "").

Definition parseCSVText (text : string) : list (list string) :=
  map parse_line (List.filter nonblank (split_lines text)).

(** ** Numbers: IEEE-754 binary64

    A Number is a [spec_float] with 53 bits of precision; every finite
    value built below is in canonical form, so that structural equality
    is equality of Numbers (up to the sign of zero, which is kept). *)

Definition number := spec_float.

Definition is_nan (x : number) : bool :=
  match x with S754_nan => true | _ => false end.

(** [x / y] *)
Definition num_div (x y : number) : number := SFdiv 53 1024 x y.

(** The Number nearest to [(-1)^neg * m * 10^scale], ties to even. *)
Definition num_of_decimal (neg : bool) (m : Z) (scale : Z) : number :=
  match m with
  | Zpos p =>
      match scale with
      | Zneg _ =>
          num_div (S754_finite neg p 0)
                  (S754_finite false (Z.to_pos (10 ^ (- scale))) 0)
      | _ =>
          num_div (S754_finite neg (Z.to_pos (Zpos p * 10 ^ scale)) 0)
                  (S754_finite false 1 0)
      end
  | _ => S754_zero neg
  end.

Definition num_of_Z (z : Z) : number :=
  num_of_decimal (z <? 0)%Z (Z.abs z) 0.

(** [RATE] *)
Definition RATE : number := num_of_Z 4000.

Definition digit_val (c : ascii) : Z := Z.of_N (code c) - 48.

(** Reads the longest run of decimal digits: the accumulated value, the
    number of digits read and the rest of the input. *)
Fixpoint read_digits (s : string) (acc : Z) (n : Z) : Z * Z * string :=
  match s with
  | String c r =>
      if is_digit c then read_digits r (10 * acc + digit_val c)%Z (n + 1)%Z
      else (acc, n, s)
  | "" => (acc, n, s)
  end.

Definition read_sign (s : string) : bool * string :=
  match s with
  | String c r =>
      if (code c =? 45)%N then (true, r)
      else if (code c =? 43)%N then (false, r)
      else (false, s)
  | "" => (false, s)
  end.

(** ExponentPart: [e] or [E], an optional sign, at least one digit. *)
Definition read_exponent (s : string) : option (Z * string) :=
  match s with
  | String c r =>
      if letter_ci 69 c then
        let '(neg, r1) := read_sign r in
        let '(v, n, r2) := read_digits r1 0 0 in
        if (n =? 0)%Z then None
        else Some (if neg then (- v)%Z else v, r2)
      else None
  | "" => None
  end.

(** The longest prefix that is a StrUnsignedDecimalLiteral other than
    [Infinity]: mantissa, decimal scale and the rest of the input. *)
Definition read_decimal (s : string) : option (Z * Z * string) :=
  let '(ip, ni, r1) := read_digits s 0 0 in
  let '(m, nf, r2) :=
    match r1 with
    | String c r =>
        if (code c =? 46)%N then read_digits r ip 0 else (ip, 0%Z, r1)
    | "" => (ip, 0%Z, r1)
    end in
  if (ni + nf =? 0)%Z then None
  else
    match read_exponent r2 with
    | Some (ex, r3) => Some (m, (ex - nf)%Z, r3)
    | None => Some (m, (- nf)%Z, r2)
    end.

Definition starts_with (p s : string) : bool := String.prefix p s.

Definition drop (n : nat) (s : string) : string :=
  String.substring n (String.length s - n) s.

(** The global [parseFloat] on a string argument. *)
Definition parseFloat (s : string) : number :=
  let '(neg, r) := read_sign (trimStart s) in
  if starts_with "Infinity" r then S754_infinity neg
  else
    match read_decimal r with
    | Some (m, scale, _) => num_of_decimal neg m scale
    | None => S754_nan
    end.

Definition radix_digit (radix : Z) (c : ascii) : option Z :=
  let v :=
    if is_digit c then digit_val c
    else if in_range 97 102 c then (Z.of_N (code c) - 87)%Z
    else if in_range 65 70 c then (Z.of_N (code c) - 55)%Z
    else 99%Z in
  if (v <? radix)%Z then Some v else None.

Fixpoint read_radix (radix : Z) (s : string) (acc : Z) : option Z :=
  match s with
  | "" => Some acc
  | String c r =>
      match radix_digit radix c with
      | Some v => read_radix radix r (radix * acc + v)%Z
      | None => None
      end
  end.

Definition radix_literal (s : string) : option (option Z) :=
  match s with
  | String z (String x (String c r)) =>
      if (code z =? 48)%N then
        let lit := String c r in
        if letter_ci 88 x then Some (read_radix 16 lit 0)
        else if letter_ci 79 x then Some (read_radix 8 lit 0)
        else if letter_ci 66 x then Some (read_radix 2 lit 0)
        else None
      else None
  | _ => None
  end.

(** ToNumber on a string (StringToNumber): what [Number(s)] and the
    operand conversion of [s / RATE] compute. *)
Definition ToNumber (s : string) : number :=
  let t := trim s in
  match t with
  | "" => S754_zero false
  | _ =>
      match radix_literal t with
      | Some (Some v) => num_of_Z v
      | Some None => S754_nan
      | None =>
          let '(neg, r) := read_sign t in
          if String.eqb r "Infinity" then S754_infinity neg
          else
            match read_decimal r with
            | Some (m, scale, "") => num_of_decimal neg m scale
            | _ => S754_nan
            end
      end
  end.

(** *** Printing Numbers *)

Definition digits_of (z : Z) : string :=
  NilEmpty.string_of_uint (N.to_uint (Z.to_N z)).

Fixpoint zeros (n : nat) : string :=
  match n with
  | O => ""
  | S n' => String "0" (zeros n')
  end.

Definition take (n : nat) (s : string) : string := String.substring 0 n s.

(** The exact value [m * 2^e] of a finite Number, as a fraction. *)
Definition ratio_of (m : positive) (e : Z) : Z * Z :=
  if (0 <=? e)%Z then (Zpos m * 2 ^ e, 1)%Z else (Zpos m, 2 ^ (- e))%Z.

(** [floor (num / den / 10^scale)] *)
Definition scaled_floor (num den scale : Z) : Z :=
  if (0 <=? scale)%Z then (num / (den * 10 ^ scale))%Z
  else (num * 10 ^ (- scale) / den)%Z.

(** The least [j >= j0] with [num * 10^j >= den]. *)
Fixpoint scale_up (fuel : nat) (num den j : Z) : Z :=
  match fuel with
  | O => j
  | S fuel' =>
      if (den <=? num * 10 ^ j)%Z then j else scale_up fuel' num den (j + 1)%Z
  end.

(** The [n] with [10^(n-1) <= num/den < 10^n]. *)
Definition decimal_exponent (num den : Z) : Z :=
  if (den <=? num)%Z
  then Z.of_nat (String.length (digits_of (num / den)))
  else (1 - scale_up 400 num den 0)%Z.

Definition number_eqb (x y : number) : bool :=
  match x, y with
  | S754_zero a, S754_zero b => Bool.eqb a b
  | S754_infinity a, S754_infinity b => Bool.eqb a b
  | S754_finite a m e, S754_finite b m' e' =>
      Bool.eqb a b && Pos.eqb m m' && Z.eqb e e'
  | _, _ => false
  end.

(** Is [2 * num/den <= c * 10^scale]? *)
Definition twice_le (num den c scale : Z) : bool :=
  if (0 <=? scale)%Z then (2 * num <=? c * 10 ^ scale * den)%Z
  else (2 * num * 10 ^ (- scale) <=? c * den)%Z.

(** Number::toString, step 5: the integers [n], [k], [s] with [k] as small
    as possible such that [s * 10^(n-k)] converts back to [x]; of two such
    [s] the one nearer to [x]. *)
Fixpoint shortest (fuel : nat) (x : number) (num den n k : Z) : Z * Z * Z :=
  let scale := (n - k)%Z in
  let lo := scaled_floor num den scale in
  let hi := (lo + 1)%Z in
  match fuel with
  | O => (n, k, lo)
  | S fuel' =>
      let ok_lo := number_eqb (num_of_decimal false lo scale) x in
      let ok_hi := number_eqb (num_of_decimal false hi scale) x in
      if ok_lo && (negb ok_hi || twice_le num den (2 * lo + 1) scale)
      then (n, k, lo)
      else if ok_hi
      then if (hi =? 10 ^ k)%Z then (n + 1, k, 10 ^ (k - 1))%Z else (n, k, hi)
      else shortest fuel' x num den n (k + 1)%Z
  end.

Definition exponent_suffix (e : Z) : string :=
  "e" +:+ (if (e <? 0)%Z then "-" else "+") +:+ digits_of (Z.abs e).

(** Number::toString, steps 6 to 11, for the digits [s] and exponent [n]. *)
Definition layout (n k s : Z) : string :=
  let d := digits_of s in
  if ((k <=? n) && (n <=? 21))%Z then d +:+ zeros (Z.to_nat (n - k))
  else if ((0 <? n) && (n <=? 21))%Z
  then take (Z.to_nat n) d +:+ "." +:+ drop (Z.to_nat n) d
  else if ((-6 <? n) && (n <=? 0))%Z
  then "0." +:+ zeros (Z.to_nat (- n)) +:+ d
  else if (k =? 1)%Z then d +:+ exponent_suffix (n - 1)
  else take 1 d +:+ "." +:+ drop 1 d +:+ exponent_suffix (n - 1).

(** [String(x)] for a Number (Number::toString, radix 10). *)
Definition num_to_string (x : number) : string :=
  match x with
  | S754_nan => "NaN"
  | S754_zero _ => "0"
  | S754_infinity neg => if neg then "-Infinity" else "Infinity"
  | S754_finite neg m e =>
      let '(num, den) := ratio_of m e in
      let '(n, k, s) := shortest 17 (S754_finite false m e) num den
                                 (decimal_exponent num den) 1 in
      (if neg then "-" else "") +:+ layout n k s
  end.

Definition digit_char (d : Z) : ascii := ascii_of_N (48 + Z.to_N d).

(** [x.toFixed(2)]: below [10^21] in magnitude, the integer [n] nearest to
    [100 * |x|] (the larger one of two) printed with its last two digits
    after the point; otherwise the plain string form. *)
Definition toFixed2 (x : number) : string :=
  match x with
  | S754_finite neg m e =>
      let '(num, den) := ratio_of m e in
      if (10 ^ 21 * den <=? num)%Z then num_to_string x
      else
        let n := ((200 * num + den) / (2 * den))%Z in
        (if neg then "-" else "") +:+ digits_of (n / 100) +:+ "."
          +:+ String (digit_char (n mod 100 / 10))
                (String (digit_char (n mod 10)) "")
  | S754_zero _ => "0.00"
  | _ => num_to_string x
  end.

(** ** Values and the currency helpers *)

(** The values the helpers are called with. *)
Inductive value :=
  | Undefined
  | Null
  | Str (s : string)
  | Num (x : number).

(** [String(v)] *)
Definition to_string (v : value) : string :=
  match v with
  | Undefined => "undefined"
  | Null => "null"
  | Str s => s
  | Num x => num_to_string x
  end.

(** ToBoolean *)
Definition truthy (v : value) : bool :=
  match v with
  | Str s => negb (String.eqb s "")
  | Num (S754_finite _ _ _) | Num (S754_infinity _) => true
  | _ => false
  end.

(** [a || b] *)
Definition js_or (a b : value) : value := if truthy a then a else b.

Definition cleanCurrency (v : value) : string :=
  match v with
  | Undefined | Null => ""
  | _ =>
      trim (remove_if is_comma
              (remove_KHR (remove_if is_dquote (to_string v))))
  end.

Definition formatUSD (v : value) : string :=
  match v with
  | Undefined | Null => ""
  | _ =>
      let n := parseFloat
                 (remove_if (fun c => negb (is_numeric_char c)) (to_string v)) in
      if is_nan n then "" else toFixed2 n
  end.

(** ** Records and the import mappers *)

Record book := Book { name : string; khr : string; usd : string }.

(** [obj[k]] on an object whose own properties are strings. *)
Definition prop (obj : gmap string string) (k : string) : value :=
  match obj !! k with
  | Some s => Str s
  | None => Undefined
  end.

(** [r[idx] ? r[idx].trim() : ''] *)
Definition cell (r : list string) (idx : nat) : string :=
  match r !! idx with
  | Some s => if String.eqb s "" then "" else trim s
  | None => ""
  end.

(** [header.forEach((h, idx) => obj[h] = ...)], continued from [idx]. *)
Fixpoint fill_object (header : list string) (idx : nat) (r : list string)
    (obj : gmap string string) : gmap string string :=
  match header with
  | [] => obj
  | h :: hs => fill_object hs (S idx) r (<[h := cell r idx]> obj)
  end.

Definition row_object (header r : list string) : gmap string string :=
  fill_object header 0 r ∅.

(** [rows.shift().map(h => h.trim().toLowerCase())] *)
Definition normalize_header (h : list string) : list string :=
  map (fun c => toLowerCase (trim c)) h.

(** The usd argument shared by both CSV paths:
    [obj['usd'] || (cleanCurrency(obj['price/unit']) / RATE)]. *)
Definition csv_usd_source (obj : gmap string string) : value :=
  js_or (prop obj "usd")
        (Num (num_div (ToNumber (cleanCurrency (prop obj "price/unit"))) RATE)).

(** The alias chains end in [''], so [to_string] is applied to strings. *)
Definition csv_name (obj : gmap string string) : string :=
  to_string (js_or (js_or (js_or (prop obj "book title") (prop obj "title"))
                          (prop obj "name")) (Str "")).

(** The row mapper of the file-input handler, CSV branch. *)
Definition map_row_manual (header r : list string) : book :=
  let obj := row_object header r in
  Book (csv_name obj)
       (cleanCurrency (js_or (js_or (js_or (prop obj "price/unit") (prop obj "khr"))
                                    (prop obj "price (khr)")) (Str "")))
       (formatUSD (csv_usd_source obj)).

(** The row mapper of [loadDefaultCSV]. *)
Definition map_row_default (header r : list string) : book :=
  let obj := row_object header r in
  Book (csv_name obj)
       (cleanCurrency (js_or (js_or (prop obj "price/unit") (prop obj "khr"))
                             (Str "")))
       (formatUSD (csv_usd_source obj)).

(** The row mapper of the spreadsheet branch; with [{raw: false}] every
    cell of a sheet row is its formatted text. *)
Definition map_row_sheet (r : gmap string string) : book :=
  Book (to_string (js_or (js_or (js_or (prop r "Book Title") (prop r "Title"))
                                (prop r "name")) (Str "")))
       (cleanCurrency (js_or (js_or (prop r "Price/Unit") (prop r "KHR")) (Str "")))
       (formatUSD
          (js_or (prop r "USD")
             (if truthy (prop r "Price/Unit")
              then Num (num_div
                          (ToNumber (remove_if (fun c => negb (is_numeric_char c))
                                       (to_string (prop r "Price/Unit"))))
                          RATE)
              else Str ""))).

(** [rows.shift()] followed by [rows.map(...)]. *)
Definition map_rows (mapper : list string -> list string -> book)
    (rows : list (list string)) : list book :=
  match rows with
  | [] => []
  | h :: data => map (mapper (normalize_header h)) data
  end.

(** ** The store, its search index and the persisted slot *)

(** What a handler shows to the user. *)
Inductive notice :=
  | NameRequired
  | CsvEmpty
  | ImportFailed
  | NoDataToExport.

(** [books] and [searchIndex] are JavaScript arrays: an element is a value
    or a hole ([None]).  [stored] is the array last written under
    [STORAGE_KEY], if any. *)
Record state := State {
  books : list (option book);
  searchIndex : list (option string);
  stored : option (list (option book))
}.

Definition set_books (bs : list (option book)) (st : state) : state :=
  State bs (searchIndex st) (stored st).

(** [saveToStorage()] when [JSON.stringify] and [setItem] return: the slot
    holds the store.  The write that throws is [saveToStorage_run false],
    below. *)
Definition saveToStorage (st : state) : state :=
  State (books st) (searchIndex st) (Some (books st)).

(** [b.f || ''] on a string field. *)
Definition or_empty (s : string) : string := to_string (js_or (Str s) (Str "")).

Definition composite (b : book) : string :=
  toLowerCase (or_empty (name b) +:+ " " +:+ or_empty (khr b) +:+ " "
               +:+ or_empty (usd b)).

(** [Array.prototype.map] keeps holes. *)
Definition array_map {A B} (f : A -> B) (l : list (option A)) : list (option B) :=
  map (option_map f) l.

Definition buildSearchIndex (st : state) : state :=
  State (books st) (array_map composite (books st)) (stored st).

(** The array index a Number denotes as a property key, if any: an
    integer from 0 to 2^32 - 2. *)
Definition array_index (x : number) : option nat :=
  match x with
  | S754_zero _ => Some O
  | S754_finite false m e =>
      let '(num, den) := ratio_of m e in
      if ((num mod den =? 0) && (num / den <? 2 ^ 32 - 1))%Z
      then Some (Z.to_nat (num / den)) else None
  | _ => None
  end.

(** [a[i] = x] for an array index [i]: in range it replaces the element,
    beyond the end it extends the array, leaving holes in between. *)
Definition array_set {A} (l : list (option A)) (i : nat) (x : A) : list (option A) :=
  if (i <? length l)%nat then <[i := Some x]> l
  else l ++ replicate (i - length l) None ++ [Some x].

(** [a[Number(idx)] = x]; a key that is not an array index creates a named
    property and leaves the elements alone. *)
Definition array_store {A} (l : list (option A)) (idx : string) (x : A) : list (option A) :=
  match array_index (ToNumber idx) with
  | Some i => array_set l i x
  | None => l
  end.

Definition postImportFinish (st : state) : state :=
  buildSearchIndex (saveToStorage st).

(** [saveFromModal], with the values of the four modal inputs. *)
Definition saveFromModal (editIndex bookName priceKHR priceUSD : string)
    (st : state) : state * list notice :=
  let name := trim (or_empty bookName) in
  let khr := cleanCurrency (Str priceKHR) in
  let usd := formatUSD (Str priceUSD) in
  if String.eqb name "" then (st, [NameRequired])
  else
    let entry := Book name khr usd in
    let bs :=
      if String.eqb editIndex "" then Some entry :: books st
      else array_store (books st) editIndex entry in
    (buildSearchIndex (saveToStorage (set_books bs st)), []).

(** [deleteBook(i)], with the answer to the confirmation dialog. *)
Definition deleteBook (i : nat) (confirmed : bool) (st : state) : state :=
  if confirmed
  then buildSearchIndex (saveToStorage (set_books (delete i (books st)) st))
  else st.

(** A picked file: its name, the outcome of [file.text()] and the outcome
    of reading it as a workbook down to [sheet_to_json]; [None] is a
    rejected promise or a thrown error. *)
Record file := File {
  file_name : string;
  file_text : option string;
  file_sheet : option (list (gmap string string))
}.

Definition endsWith (s suffix : string) : bool :=
  (String.length suffix <=? String.length s)%nat
  && String.eqb (drop (String.length s - String.length suffix) s) suffix.

(** The [change] handler of [#localCsvInput]. *)
Definition importFile (f : option file) (st : state) : state * list notice :=
  match f with
  | None => (st, [])
  | Some file =>
      if endsWith (toLowerCase (or_empty (file_name file))) ".csv" then
        match file_text file with
        | None => (st, [ImportFailed])
        | Some txt =>
            let rows := parseCSVText txt in
            if (length rows =? 0)%nat then (st, [CsvEmpty])
            else
              (postImportFinish
                 (set_books (map Some (map_rows map_row_manual rows)) st), [])
        end
      else
        match file_sheet file with
        | None => (st, [ImportFailed])
        | Some json =>
            (postImportFinish
               (set_books (map (fun r => Some (map_row_sheet r)) json) st), [])
        end
  end.

(** The outcome of [fetch('books.csv')] and of [res.text()]. *)
Inductive fetch_outcome :=
  | FetchRejected
  | Fetched (ok : bool) (body : option string).

Definition loadDefaultCSV (f : fetch_outcome) (st : state) : state * list notice :=
  match f with
  | Fetched true (Some txt) =>
      let rows := parseCSVText txt in
      if (length rows <=? 1)%nat then (st, [])
      else
        let mapped := map_rows map_row_default rows in
        if (length (books st) =? 0)%nat
        then (saveToStorage (set_books (map Some mapped) st), [])
        else (st, [])
  | _ => (st, [])
  end.

(** ** Export *)

Inductive export_result :=
  | ExportNoData
  | ExportThrows
  | ExportFile (csv : string).

(** The replacement of every double quote by two, as the export does on
    each field. *)
Fixpoint double_quotes (s : string) : string :=
  match s with
  | "" => ""
  | String c r =>
      if Ascii.eqb c dquote then String dquote (String dquote (double_quotes r))
      else String c (double_quotes r)
  end.

Definition quote_cell (c : string) : string :=
  String dquote (double_quotes c) +:+ String dquote "".

(** [Array.prototype.join] *)
Fixpoint join (sep : string) (l : list string) : string :=
  match l with
  | [] => ""
  | x :: r =>
      match r with
      | [] => x
      | _ => x +:+ sep +:+ join sep r
      end
  end.

Definition export_header : list string := ["Book Title"; "Price/Unit"; "USD"].

Definition export_row (b : book) : list string :=
  [or_empty (name b); or_empty (khr b); or_empty (usd b)].

(** [r.map(c => ...).join(',')] *)
Definition csv_line (r : list string) : string := join "," (map quote_cell r).

Definition csv_text (rows : list (list string)) : string :=
  join (String LF "") (map csv_line rows).

(** [books.map(...)] skips holes; spreading the result yields [undefined]
    there, on which [r.map] throws. *)
Fixpoint dense {A} (l : list (option A)) : option (list A) :=
  match l with
  | [] => Some []
  | Some x :: r => option_map (cons x) (dense r)
  | None :: _ => None
  end.

(** The [click] handler of [#exportBtn]: the text of the downloaded file. *)
Definition exportCSV (st : state) : export_result :=
  if (length (books st) =? 0)%nat then ExportNoData
  else
    match dense (books st) with
    | None => ExportThrows
    | Some bs => ExportFile (csv_text (export_header :: map export_row bs))
    end.

(** ** Specification-level readings

    Definitions that follow the wording of the specification; the
    theorems below compare them with the definitions taken from the
    code. *)

(** The scanning rules in the words of the specification, by recursion on
    the characters that remain: [q] is the quoted-field flag and [cur] the
    field buffer. *)
Fixpoint fields_from (q : bool) (cur : string) (s : string) : list string :=
  match s with
  | "" => [cur]
  | String c r =>
      if Ascii.eqb c dquote then
        match r with
        | String c' r' =>
            if q && Ascii.eqb c' dquote
            then fields_from q (snoc cur dquote) r'
            else fields_from (negb q) cur r
        | "" => fields_from (negb q) cur r
        end
      else if Ascii.eqb c comma && negb q then cur :: fields_from q "" r
      else fields_from q (snoc cur c) r
  end.

(** Carriage-return-prefixed line endings read as bare ones. *)
Fixpoint crlf_to_lf (s : string) : string :=
  match s with
  | "" => ""
  | String c r =>
      match r with
      | String c' r' =>
          if Ascii.eqb c CR && Ascii.eqb c' LF
          then String LF (crlf_to_lf r')
          else String c (crlf_to_lf r)
      | "" => String c ""
      end
  end.

Fixpoint has_char (c : ascii) (s : string) : bool :=
  match s with
  | "" => false
  | String c' r => Ascii.eqb c' c || has_char c r
  end.

Definition next_is_dquote (r : string) : bool :=
  match r with
  | String c' _ => Ascii.eqb c' dquote
  | "" => false
  end.


(** The characters of [s] outside the class [p], in order. *)
Definition without (p : ascii -> bool) (s : string) : string :=
  string_of_list_ascii
    (List.filter (fun c => negb (p c)) (list_ascii_of_string s)).

(** Does [KHR], in any letter case, occur at the start of [s]? *)
Definition occurs_KHR (s : string) : bool :=
  match s with
  | String a (String b (String c _)) =>
      letter_ci 75 a && letter_ci 72 b && letter_ci 82 c
  | _ => false
  end.

(** Deletes every character that lies inside an occurrence of [KHR] in
    [s]; [inside] counts the characters still covered by an occurrence
    that started earlier. *)
Fixpoint delete_occurrences (inside : nat) (s : string) : string :=
  match s with
  | "" => ""
  | String a r =>
      match (if occurs_KHR s then 3 else inside)%nat with
      | O => String a (delete_occurrences 0 r)
      | S k => delete_occurrences k r
      end
  end.

Fixpoint all_ws (s : string) : bool :=
  match s with
  | "" => true
  | String c r => is_ws c && all_ws r
  end.

Definition starts_ws (s : string) : bool :=
  match s with
  | String c _ => is_ws c
  | "" => false
  end.

Fixpoint ends_ws (s : string) : bool :=
  match s with
  | "" => false
  | String c r =>
      match r with
      | "" => is_ws c
      | _ => ends_ws r
      end
  end.

(** [t] is [s] without its surrounding whitespace. *)
Definition is_trim_of (s t : string) : Prop :=
  ∃ l r, s = l +:+ t +:+ r ∧ all_ws l = true ∧ all_ws r = true
         ∧ starts_ws t = false ∧ ends_ws t = false.

(** The Number [formatUSD] parses out of its argument. *)
Definition parsed (v : value) : number :=
  parseFloat (without (fun c => negb (is_numeric_char c)) (to_string v)).

(** Is [x] finite and below [10^21] in magnitude? *)
Definition below_1e21 (x : number) : bool :=
  match x with
  | S754_zero _ => true
  | S754_finite _ m e =>
      let '(num, den) := ratio_of m e in (num <? 10 ^ 21 * den)%Z
  | _ => false
  end.

(** One or more digits (when [seen], possibly none), a point, exactly two
    digits. *)
Fixpoint digits_point_two (seen : bool) (s : string) : bool :=
  match s with
  | "" => false
  | String c r =>
      if is_digit c then digits_point_two true r
      else
        seen && (code c =? 46)%N
        && match r with
           | String a (String b "") => is_digit a && is_digit b
           | _ => false
           end
  end.

(** An optional minus sign, digits, a point and exactly two decimal
    digits. *)
Definition two_decimals (s : string) : bool :=
  match s with
  | String c r =>
      if (code c =? 45)%N then digits_point_two false r
      else digits_point_two false s
  | "" => false
  end.

Fixpoint all_digits (s : string) : bool :=
  match s with
  | "" => true
  | String c r => is_digit c && all_digits r
  end.

(** The index of the last header cell equal to [k], counting from [idx]. *)
Fixpoint last_column_from (k : string) (header : list string) (idx : nat)
    : option nat :=
  match header with
  | [] => None
  | h :: hs =>
      match last_column_from k hs (S idx) with
      | Some j => Some j
      | None => if String.eqb h k then Some idx else None
      end
  end.

(** The trimmed cell of row [r] under the header [k], if there is such a
    column; a cell missing from the row reads as the empty string. *)
Definition column_value (header r : list string) (k : string) : option string :=
  cell r <$> last_column_from k header 0.

Definition value_of (o : option string) : value :=
  match o with
  | Some s => Str s
  | None => Undefined
  end.

(** Is the column present with a non-empty value? *)
Definition filled (o : option string) : bool := truthy (value_of o).

(** The khr source as the header-alias resolution selects it. *)
Definition khr_source (obj : gmap string string) : value :=
  js_or (js_or (js_or (prop obj "price/unit") (prop obj "khr"))
               (prop obj "price (khr)")) (Str "").

(** The usd field as the specification derives it: from the explicit
    column, otherwise from the resolved khr source. *)
Definition usd_from_resolved_khr (obj : gmap string string) : string :=
  formatUSD (js_or (prop obj "usd")
               (Num (num_div (ToNumber (cleanCurrency (khr_source obj))) RATE))).

(** The mutating operations, each with the inputs its handler reads. *)
Inductive op :=
  | Save (editIndex bookName priceKHR priceUSD : string)
  | Delete (i : nat) (confirmed : bool)
  | Import (f : option file).

Definition step (st : state) (o : op) : state :=
  match o with
  | Save idx nm k u => fst (saveFromModal idx nm k u st)
  | Delete i c => deleteBook i c st
  | Import f => fst (importFile f st)
  end.

Definition run (ops : list op) (st : state) : state := fold_left step ops st.

(** The search index is the image of the store. *)
Definition indexed (st : state) : Prop :=
  searchIndex st = array_map composite (books st).

(** Export followed by the import of the downloaded file; [None] when the
    export produces no file. *)
Definition export_then_import (bs : list (option book))
    : option (list (option book)) :=
  match exportCSV (State bs [] None) with
  | ExportFile csv =>
      Some (books (fst (importFile
              (Some (File "books_export.csv" (Some csv) None))
              (State bs [] None))))
  | _ => None
  end.

(** A record that the import normalisations leave alone: no field holds a
    line feed, the name is trimmed, the khr field is a fixed point of
    [cleanCurrency], the usd field is non-empty, trimmed and a fixed point
    of [formatUSD]. *)
Definition stable (b : book) : Prop :=
  has_char LF (name b) = false
  ∧ has_char LF (khr b) = false
  ∧ has_char LF (usd b) = false
  ∧ trim (name b) = name b
  ∧ cleanCurrency (Str (khr b)) = khr b
  ∧ usd b ≠ ""
  ∧ trim (usd b) = usd b
  ∧ formatUSD (Str (usd b)) = usd b.

Fixpoint last_char (s : string) : option ascii :=
  match s with
  | "" => None
  | String c r =>
      match r with
      | "" => Some c
      | _ => last_char r
      end
  end.

(** ** Runs with the outcome of the storage write *)

(** [saveToStorage()] with the outcome of [JSON.stringify] and [setItem]:
    the slot is written, or the call throws (quota exceeded, storage
    blocked) and nothing after it runs. *)
Definition saveToStorage_run (ok : bool) (st : state) : option state :=
  if ok then Some (saveToStorage st) else None.

(** [saveFromModal]: a throwing write rejects the promise after the store
    was changed and before [buildSearchIndex]. *)
Definition saveFromModal_run (ok : bool)
    (editIndex bookName priceKHR priceUSD : string) (st : state)
    : state * list notice :=
  let name := trim (or_empty bookName) in
  let khr := cleanCurrency (Str priceKHR) in
  let usd := formatUSD (Str priceUSD) in
  if String.eqb name "" then (st, [NameRequired])
  else
    let entry := Book name khr usd in
    let bs :=
      if String.eqb editIndex "" then Some entry :: books st
      else array_store (books st) editIndex entry in
    match saveToStorage_run ok (set_books bs st) with
    | Some st' => (buildSearchIndex st', [])
    | None => (set_books bs st, [])
    end.

Definition deleteBook_run (ok : bool) (i : nat) (confirmed : bool) (st : state)
    : state :=
  if confirmed then
    match saveToStorage_run ok (set_books (delete i (books st)) st) with
    | Some st' => buildSearchIndex st'
    | None => set_books (delete i (books st)) st
    end
  else st.

(** [postImportFinish] runs inside the [try] of the import handler: a
    throwing write is caught there and reported as a failed import, with
    the store already replaced. *)
Definition finish_import_run (ok : bool) (st : state) : state * list notice :=
  match saveToStorage_run ok st with
  | Some st' => (buildSearchIndex st', [])
  | None => (st, [ImportFailed])
  end.

Definition importFile_run (ok : bool) (f : option file) (st : state)
    : state * list notice :=
  match f with
  | None => (st, [])
  | Some file =>
      if endsWith (toLowerCase (or_empty (file_name file))) ".csv" then
        match file_text file with
        | None => (st, [ImportFailed])
        | Some txt =>
            let rows := parseCSVText txt in
            if (length rows =? 0)%nat then (st, [CsvEmpty])
            else
              finish_import_run ok
                (set_books (map Some (map_rows map_row_manual rows)) st)
        end
      else
        match file_sheet file with
        | None => (st, [ImportFailed])
        | Some json =>
            finish_import_run ok
              (set_books (map (fun r => Some (map_row_sheet r)) json) st)
        end
  end.

(** [loadDefaultCSV]: the store is assigned before the write, and the
    [catch] swallows a throwing write like every other error. *)
Definition loadDefaultCSV_run (ok : bool) (f : fetch_outcome) (st : state)
    : state * list notice :=
  match f with
  | Fetched true (Some txt) =>
      let rows := parseCSVText txt in
      if (length rows <=? 1)%nat then (st, [])
      else
        let mapped := map_rows map_row_default rows in
        if (length (books st) =? 0)%nat
        then
          match saveToStorage_run ok (set_books (map Some mapped) st) with
          | Some st' => (st', [])
          | None => (set_books (map Some mapped) st, [])
          end
        else (st, [])
  | _ => (st, [])
  end.

(** [init], from the array [loadFromStorage] parsed out of a slot this
    program wrote: an entry is a record or [null] ([None]), which is how
    JSON writes a hole.  On a [null] entry [buildSearchIndex] throws and
    the index is never built: [None]. *)
Definition init (ok : bool) (loaded : list (option book))
    (slot : option (list (option book))) (f : fetch_outcome) : option state :=
  match dense loaded with
  | Some bs =>
      Some (buildSearchIndex
              (fst (loadDefaultCSV_run ok f (State (map Some bs) [] slot))))
  | None => None
  end.

(** A mutating operation together with the outcome of its write. *)
Definition step_run (st : state) (o : op * bool) : state :=
  match o with
  | (Save idx nm k u, ok) => fst (saveFromModal_run ok idx nm k u st)
  | (Delete i c, ok) => deleteBook_run ok i c st
  | (Import f, ok) => fst (importFile_run ok f st)
  end.

Definition run_all (ops : list (op * bool)) (st : state) : state :=
  fold_left step_run ops st.

(** The index property in the words of the specification: equal lengths,
    and at every position the index entry is the lowercase composite of
    the record there. *)
Definition index_as_stated (st : state) : Prop :=
  length (searchIndex st) = length (books st)
  ∧ ∀ i, (i < length (books st))%nat →
      ∃ b, books st !! i = Some (Some b)
           ∧ searchIndex st !! i
             = Some (Some (toLowerCase
                             (name b +:+ " " +:+ khr b +:+ " " +:+ usd b))).

(** ** Rendering helper, search and the plain CSV loader *)

(** [s.replace(/c/g, rep)] for a single character [c]. *)
Fixpoint replace_char (c : ascii) (rep : string) (s : string) : string :=
  match s with
  | "" => ""
  | String a r =>
      if Ascii.eqb a c then rep +:+ replace_char c rep r
      else String a (replace_char c rep r)
  end.

Definition amp : ascii := Ascii.ascii_of_nat 38.
Definition lt_sign : ascii := Ascii.ascii_of_nat 60.
Definition gt_sign : ascii := Ascii.ascii_of_nat 62.

Definition escapeHtml (s : string) : string :=
  replace_char gt_sign "&gt;"
    (replace_char lt_sign "&lt;" (replace_char amp "&amp;" s)).

(** [s.includes(q)] *)
Fixpoint includes (s q : string) : bool :=
  String.prefix q s
  || match s with
     | "" => false
     | String _ r => includes r q
     end.

(** [books[i]] as pushed into an array: a hole or a missing index reads as
    [undefined], here [None]. *)
Definition element {A} (l : list (option A)) (i : nat) : option A :=
  match l !! i with
  | Some x => x
  | None => None
  end.

(** The loop of the search handler from index [i] on, over the rest of
    [searchIndex]; [None] is the TypeError of [undefined.includes]. *)
Fixpoint search_loop (i : nat) (rest : list (option string)) (q : string)
    (bs : list (option book)) (filtered : list (option book))
    : option (list (option book)) :=
  match rest with
  | [] => Some filtered
  | None :: _ => None
  | Some s :: rest' =>
      search_loop (S i) rest' q bs
        (if includes s q then filtered ++ [element bs i] else filtered)
  end.

(** The [input] handler of the search box, after the debounce delay: the
    list handed to [render]. *)
Definition search (input : string) (st : state) : option (list (option book)) :=
  let q := toLowerCase (trim (or_empty input)) in
  if String.eqb q "" then Some (books st)
  else search_loop 0 (searchIndex st) q (books st) [].

(** [s.split(sep)] for a single character separator. *)
Fixpoint split_on_from (sep : ascii) (cur : string) (s : string) : list string :=
  match s with
  | "" => [cur]
  | String c r =>
      if Ascii.eqb c sep then cur :: split_on_from sep "" r
      else split_on_from sep (snoc cur c) r
  end.

Definition split_on (sep : ascii) (s : string) : list string :=
  split_on_from sep "" s.

(** The [input] handler of [#priceKHR]: the text written to [#priceUSD]. *)
Definition onPriceKHRInput (priceKHR : string) : string :=
  let raw := trim (remove_if is_comma (or_empty priceKHR)) in
  let n := parseFloat raw in
  let n := if truthy (Num n) then n else S754_zero false in
  toFixed2 (num_div n RATE).

(** The three cells of a table row the [#loadBtn] handler appends. *)
Definition legacy_row (cols : list string) : option (string * string * string) :=
  match cols with
  | a :: b :: c :: _ => Some (a, b, c)
  | _ => None
  end.

(** The [#loadBtn] handler on the text of the chosen file: the rows it
    writes into the table body, store untouched. *)
Definition legacy_table (text : string) : list (string * string * string) :=
  omap (fun row => legacy_row (split_on comma row))
       (List.tl (split_on LF text)).

(** *** Readings used in the statements *)

Definition escape_char (c : ascii) : string :=
  if Ascii.eqb c amp then "&amp;"
  else if Ascii.eqb c lt_sign then "&lt;"
  else if Ascii.eqb c gt_sign then "&gt;"
  else String c "".

(** Reads the three entities back. *)
Fixpoint unescapeHtml (s : string) : string :=
  match s with
  | "" => ""
  | String c r =>
      if Ascii.eqb c amp then
        match r with
        | String "a" (String "m" (String "p" (String ";" r'))) =>
            String amp (unescapeHtml r')
        | String "l" (String "t" (String ";" r')) =>
            String lt_sign (unescapeHtml r')
        | String "g" (String "t" (String ";" r')) =>
            String gt_sign (unescapeHtml r')
        | _ => String c (unescapeHtml r)
        end
      else String c (unescapeHtml r)
  end.

Fixpoint count_char (c : ascii) (s : string) : nat :=
  match s with
  | "" => O
  | String a r => (if Ascii.eqb a c then 1 else 0) + count_char c r
  end.

(** The persisted slot holds the store. *)
Definition persisted (st : state) : Prop := stored st = Some (books st).

(** Every position of the array holds a record. *)
Definition no_holes {A} (l : list (option A)) : Prop := Forall is_Some l.

(** Every record of the array satisfies [P]. *)
Definition all_records (P : book -> Prop) (l : list (option book)) : Prop :=
  Forall (fun e => match e with Some b => P b | None => True end) l.

(** What [saveFromModal] guarantees of the record it stores. *)
Definition entered (b : book) : Prop :=
  name b ≠ "" ∧ trim (name b) = name b
  ∧ has_char dquote (khr b) = false ∧ has_char comma (khr b) = false
  ∧ trim (khr b) = khr b.

Definition is_import (o : op) : bool :=
  match o with
  | Import _ => true
  | _ => false
  end.

(** Is the operation something else than an edit beyond the end of the
    store?  (An edit at the index just after the last record appends.) *)
Definition within_bounds (st : state) (o : op) : Prop :=
  match o with
  | Save idx _ _ _ =>
      idx = ""
      ∨ match array_index (ToNumber idx) with
        | Some i => (i ≤ length (books st))%nat
        | None => True
        end
  | _ => True
  end.

Fixpoint all_chars (p : ascii -> bool) (s : string) : bool :=
  match s with
  | "" => true
  | String c r => p c && all_chars p r
  end.

Definition is_point_or_minus (c : ascii) : bool :=
  ((code c =? 46) || (code c =? 45))%N.

(** ** The modal dialog *)

Inductive mode := AddMode | EditMode.

(** Whether the dialog is shown, its title and the values of its inputs
    [#editIndex], [#bookName], [#priceKHR] and [#priceUSD]. *)
Record modal := Modal {
  shown : bool;
  modalTitle : string;
  editIndex : string;
  bookName : string;
  priceKHR : string;
  priceUSD : string
}.

Definition openModal (md : mode) (m : modal) : modal :=
  match md with
  | AddMode => Modal true "Add Book" "" "" "" ""
  | EditMode =>
      Modal true "Edit Book" (editIndex m) (bookName m) (priceKHR m) (priceUSD m)
  end.

Definition closeModal (m : modal) : modal :=
  Modal false (modalTitle m) (editIndex m) (bookName m) (priceKHR m) (priceUSD m).

(** The string form of the number [i], as assigning it to an input's
    value stores it: its decimal digits. *)
Definition index_text (i : nat) : string := digits_of (Z.of_nat i).

Inductive input_id := EditIndexInput | BookNameInput | PriceKHRInput | PriceUSDInput.

(** [openEdit(i)].  What an input holds after a string is assigned to its
    value depends on the type the page markup gives the input (a text
    input drops line breaks, for one); the markup is not part of the
    program text, so this is the parameter [held]. *)
Definition openEdit (held : input_id -> string -> string) (i : nat) (st : state)
    (m : modal) : modal :=
  match element (books st) i with
  | None => m
  | Some b =>
      openModal EditMode
        (Modal (shown m) (modalTitle m)
               (held EditIndexInput (index_text i))
               (held BookNameInput (or_empty (name b)))
               (held PriceKHRInput (or_empty (khr b)))
               (held PriceUSDInput (or_empty (usd b))))
  end.

(** The inputs of a page with a hidden index field and three text
    fields: a text field drops the carriage returns and line feeds of an
    assigned value. *)
Definition text_inputs (id : input_id) (s : string) : string :=
  match id with
  | EditIndexInput => s
  | _ => remove_if (fun c => Ascii.eqb c CR || Ascii.eqb c LF) s
  end.

(** * Properties *)

(** ** Strings *)

Lemma sapp_cons c s t : String c s +:+ t = String c (s +:+ t).
Proof. reflexivity. Qed.

Lemma sapp_nil_l s : "" +:+ s = s.
Proof. reflexivity. Qed.

Lemma sapp_nil_r s : s +:+ "" = s.
Proof. induction s as [|c s IH]; [done|]. by rewrite sapp_cons, IH. Qed.

Lemma sapp_assoc s t u : (s +:+ t) +:+ u = s +:+ t +:+ u.
Proof. induction s as [|c s IH]; [done|]. by rewrite !sapp_cons, IH. Qed.

Lemma slength_app s t :
  String.length (s +:+ t) = (String.length s + String.length t)%nat.
Proof. induction s as [|c s IH]; [done|]. rewrite sapp_cons. simpl. by rewrite IH. Qed.

Lemma snoc_app cur c s : snoc cur c +:+ s = cur +:+ String c s.
Proof. unfold snoc. by rewrite sapp_assoc. Qed.

Lemma get_app_at pre s k :
  String.get (String.length pre + k) (pre +:+ s) = String.get k s.
Proof. induction pre as [|c pre IH]; [done|]. rewrite sapp_cons. simpl. apply IH. Qed.

(** ** The CSV scanner *)

Lemma scan_step_at pre c r st :
  pos st = String.length pre →
  scan_step (pre +:+ String c r) st =
    if Ascii.eqb c dquote then
      if inQuotes st && next_is_dquote r
      then Scanner (pos st + 2) (snoc (cur st) dquote) (inQuotes st) (cols st)
      else Scanner (pos st + 1) (cur st) (negb (inQuotes st)) (cols st)
    else if Ascii.eqb c comma && negb (inQuotes st)
    then Scanner (pos st + 1) "" (inQuotes st) (cols st ++ [cur st])
    else Scanner (pos st + 1) (snoc (cur st) c) (inQuotes st) (cols st).
Proof.
  intros Hpos. unfold scan_step, char_is.
  assert (H0 : String.get (pos st) (pre +:+ String c r) = Some c).
  { rewrite Hpos, <- (Nat.add_0_r (String.length pre)). apply get_app_at. }
  assert (H1 : String.get (pos st + 1) (pre +:+ String c r) = String.get 0 r).
  { by rewrite Hpos, get_app_at. }
  rewrite H0, H1. by destruct r.
Qed.

Lemma scan_loop_fields fuel : ∀ pre rest st,
  pos st = String.length pre →
  (String.length rest ≤ fuel)%nat →
  cols (scan_loop fuel (pre +:+ rest) st) ++ [cur (scan_loop fuel (pre +:+ rest) st)]
    = cols st ++ fields_from (inQuotes st) (cur st) rest
  ∧ (String.length (pre +:+ rest) ≤ pos (scan_loop fuel (pre +:+ rest) st))%nat.
Proof.
  induction fuel as [|fuel IH]; intros pre rest st Hpos Hlen.
  { destruct rest; simpl in Hlen; [|lia]. simpl. rewrite sapp_nil_r. split; [done|lia]. }
  destruct rest as [|c r].
  { simpl. rewrite sapp_nil_r, Hpos, Nat.ltb_irrefl. simpl. split; [done|lia]. }
  simpl in Hlen. cbn [scan_loop].
  assert (Hlt : (pos st <? String.length (pre +:+ String c r))%nat = true).
  { apply Nat.ltb_lt. rewrite slength_app. simpl. lia. }
  assert (Hsn : String.length (snoc pre c) = (pos st + 1)%nat).
  { unfold snoc. rewrite slength_app. simpl. lia. }
  rewrite Hlt, (scan_step_at pre c r st Hpos). cbn [fields_from].
  destruct (Ascii.eqb c dquote) eqn:Hq.
  - destruct r as [|c' r']; cbn [next_is_dquote].
    + rewrite andb_false_r.
      specialize (IH (snoc pre c) ""
        (Scanner (pos st + 1) (cur st) (negb (inQuotes st)) (cols st))).
      rewrite snoc_app in IH. apply IH; [done|simpl; lia].
    + destruct (inQuotes st && Ascii.eqb c' dquote) eqn:Hqq.
      * specialize (IH (snoc (snoc pre c) c') r'
          (Scanner (pos st + 2) (snoc (cur st) dquote) (inQuotes st) (cols st))).
        rewrite !snoc_app in IH. apply IH; [|simpl in *; lia].
        unfold snoc. rewrite !slength_app. simpl. lia.
      * specialize (IH (snoc pre c) (String c' r')
          (Scanner (pos st + 1) (cur st) (negb (inQuotes st)) (cols st))).
        rewrite snoc_app in IH. apply IH; [done|simpl in *; lia].
  - destruct (Ascii.eqb c comma && negb (inQuotes st)) eqn:Hc.
    + specialize (IH (snoc pre c) r
        (Scanner (pos st + 1) "" (inQuotes st) (cols st ++ [cur st]))).
      rewrite snoc_app in IH. cbn [inQuotes cur cols pos] in IH.
      rewrite <- (assoc_L (++)) in IH. apply IH; [done|lia].
    + specialize (IH (snoc pre c) r
        (Scanner (pos st + 1) (snoc (cur st) c) (inQuotes st) (cols st))).
      rewrite snoc_app in IH. apply IH; [done|lia].
Qed.

Lemma parse_line_fields line : parse_line line = fields_from false "" line.
Proof.
  unfold parse_line, scan_line.
  destruct (scan_loop_fields (String.length line) "" line (Scanner 0 "" false [])
              eq_refl (le_n _)) as [H _].
  exact H.
Qed.

(** The loop has run to its end: the fuel of [scan_line] is enough. *)
Lemma scan_line_finished line : (String.length line ≤ pos (scan_line line))%nat.
Proof.
  unfold scan_line.
  destruct (scan_loop_fields (String.length line) "" line (Scanner 0 "" false [])
              eq_refl (le_n _)) as [_ H].
  exact H.
Qed.

Lemma parse_line_nonempty line : parse_line line ≠ [].
Proof. unfold parse_line. by destruct (cols (scan_line line)). Qed.

(** ** Splitting into lines *)

Lemma string_length_ind (P : string → Prop) :
  (∀ s, (∀ t, (String.length t < String.length s)%nat → P t) → P s) → ∀ s, P s.
Proof.
  intros H s. remember (String.length s) as n eqn:Hn. revert s Hn.
  induction n as [n IH] using lt_wf_ind. intros s ->.
  apply H. intros t Ht. by apply (IH (String.length t)).
Qed.

Lemma join_cons sep x l : l ≠ [] → join sep (x :: l) = x +:+ sep +:+ join sep l.
Proof. by destruct l. Qed.

Lemma split_lines_from_nonempty cur s : split_lines_from cur s ≠ [].
Proof.
  revert cur. induction s as [s IH] using string_length_ind. intros cur.
  destruct s as [|c r]; [done|]. cbn [split_lines_from].
  destruct (Ascii.eqb c LF); [done|].
  destruct r as [|c' r']; [apply IH; simpl; lia|].
  destruct (Ascii.eqb c CR && Ascii.eqb c' LF); [done|]. apply IH. simpl. lia.
Qed.

Lemma split_lines_from_join cur s :
  join (String LF "") (split_lines_from cur s) = cur +:+ crlf_to_lf s.
Proof.
  revert cur. induction s as [s IH] using string_length_ind. intros cur.
  destruct s as [|c r]; [by rewrite sapp_nil_r|]. cbn [split_lines_from crlf_to_lf].
  destruct (Ascii.eqb c LF) eqn:Hc.
  - apply Ascii.eqb_eq in Hc as ->.
    rewrite join_cons by apply split_lines_from_nonempty.
    rewrite IH by (simpl; lia). rewrite sapp_nil_l.
    destruct r as [|c' r']; [done|].
    replace (Ascii.eqb LF CR) with false by done. done.
  - destruct r as [|c' r'].
    + rewrite IH by (simpl; lia). simpl. by rewrite sapp_nil_r.
    + destruct (Ascii.eqb c CR && Ascii.eqb c' LF) eqn:Hcr.
      * rewrite join_cons by apply split_lines_from_nonempty.
        rewrite IH by (simpl; lia). done.
      * rewrite IH by (simpl; lia). by rewrite snoc_app.
Qed.

Lemma has_char_snoc c cur c' :
  has_char c (snoc cur c') = has_char c cur || Ascii.eqb c' c.
Proof.
  unfold snoc. induction cur as [|a cur IH].
  - rewrite sapp_nil_l. simpl. by rewrite orb_false_r.
  - rewrite sapp_cons. cbn [has_char]. by rewrite IH, orb_assoc.
Qed.

Lemma split_lines_from_no_LF cur s :
  has_char LF cur = false →
  Forall (λ l, has_char LF l = false) (split_lines_from cur s).
Proof.
  revert cur. induction s as [s IH] using string_length_ind. intros cur Hcur.
  destruct s as [|c r]; [by constructor|]. cbn [split_lines_from].
  destruct (Ascii.eqb c LF) eqn:Hc.
  { constructor; [done|]. apply IH; [simpl; lia|done]. }
  destruct r as [|c' r'].
  { apply IH; [simpl; lia|]. by rewrite has_char_snoc, Hcur, Hc. }
  destruct (Ascii.eqb c CR && Ascii.eqb c' LF).
  - constructor; [done|]. apply IH; [simpl; lia|done].
  - apply IH; [simpl; lia|]. by rewrite has_char_snoc, Hcur, Hc.
Qed.


(** ** String replacements and trimming *)

Lemma remove_if_without p s : remove_if p s = without p s.
Proof.
  unfold without. induction s as [|c s IH]; [done|]. simpl.
  destruct (p c); simpl; by rewrite IH.
Qed.

Lemma letter_ci_excl a b c : a ≠ b → letter_ci a c = true → a ≠ (b + 32)%N →
  (a + 32)%N ≠ b → letter_ci b c = false.
Proof.
  unfold letter_ci. intros Hab H H1 H2.
  apply orb_true_iff in H as [H|H]; apply N.eqb_eq in H;
    apply orb_false_iff; split; apply N.eqb_neq; lia.
Qed.

Lemma delete_occurrences_cons k a r :
  delete_occurrences k (String a r) =
    match (if occurs_KHR (String a r) then 3 else k)%nat with
    | O => String a (delete_occurrences 0 r)
    | S k' => delete_occurrences k' r
    end.
Proof. reflexivity. Qed.

Lemma remove_KHR_cons3 a b c r :
  remove_KHR (String a (String b (String c r))) =
    if letter_ci 75 a && letter_ci 72 b && letter_ci 82 c
    then remove_KHR r
    else String a (remove_KHR (String b (String c r))).
Proof. reflexivity. Qed.

Lemma remove_KHR_deletes_occurrences s : remove_KHR s = delete_occurrences 0 s.
Proof.
  induction s as [s IH] using string_length_ind.
  destruct s as [|a r]; [done|].
  destruct r as [|b [|c r']]; [done..|].
  rewrite remove_KHR_cons3, delete_occurrences_cons.
  assert (Ho : occurs_KHR (String a (String b (String c r')))
               = letter_ci 75 a && letter_ci 72 b && letter_ci 82 c) by done.
  rewrite Ho. clear Ho.
  destruct (letter_ci 75 a && letter_ci 72 b && letter_ci 82 c) eqn:E.
  - apply andb_true_iff in E as [E Hc]. apply andb_true_iff in E as [Ha Hb].
    rewrite IH by (simpl; lia).
    assert (occurs_KHR (String b (String c r')) = false) as Hb'.
    { unfold occurs_KHR. destruct r'; [done|].
      by rewrite (letter_ci_excl 72 75 b). }
    assert (occurs_KHR (String c r') = false) as Hc'.
    { unfold occurs_KHR. destruct r' as [|? [|? ?]]; [done..|].
      by rewrite (letter_ci_excl 82 75 c). }
    by rewrite delete_occurrences_cons, Hb', delete_occurrences_cons, Hc'.
  - rewrite IH by (simpl; lia). done.
Qed.

Lemma trimStart_split s :
  ∃ l, s = l +:+ trimStart s ∧ all_ws l = true.
Proof.
  induction s as [|c s (l & Hl & Hws)]; [by exists ""|]. simpl.
  destruct (is_ws c) eqn:Hc.
  - exists (String c l). rewrite sapp_cons, <- Hl. simpl. by rewrite Hc.
  - by exists "".
Qed.

Lemma trimStart_starts s : starts_ws (trimStart s) = false.
Proof.
  induction s as [|c s IH]; [done|]. simpl. destruct (is_ws c) eqn:Hc; [done|].
  simpl. done.
Qed.

Lemma trimEnd_split s :
  ∃ r, s = trimEnd s +:+ r ∧ all_ws r = true.
Proof.
  induction s as [|c s (r & Hr & Hws)]; [by exists ""|]. cbn [trimEnd].
  destruct (trimEnd s) as [|c' t] eqn:Ht.
  - rewrite sapp_nil_l in Hr. subst r. destruct (is_ws c) eqn:Hc.
    + exists (String c s). simpl. by rewrite Hc.
    + by exists s.
  - exists r. by rewrite sapp_cons, <- Hr.
Qed.

Lemma trimEnd_ends s : ends_ws (trimEnd s) = false.
Proof.
  induction s as [|c s IH]; [done|]. cbn [trimEnd].
  destruct (trimEnd s) as [|c' t] eqn:Ht.
  - destruct (is_ws c) eqn:Hc; [done|]. simpl. done.
  - done.
Qed.

Lemma trimEnd_starts s : starts_ws s = false → starts_ws (trimEnd s) = false.
Proof.
  destruct s as [|c s]; [done|]. cbn [trimEnd starts_ws]. intros Hc.
  destruct (trimEnd s); [by rewrite Hc|done].
Qed.

Lemma trim_is_trim_of s : is_trim_of s (trim s).
Proof.
  unfold trim. destruct (trimStart_split s) as (l & Hl & Hlws).
  destruct (trimEnd_split (trimStart s)) as (r & Hr & Hrws).
  exists l, r. split; [by rewrite <- Hr|].
  repeat split; [done..| |apply trimEnd_ends].
  apply trimEnd_starts, trimStart_starts.
Qed.

Lemma all_ws_sapp a b : all_ws (a +:+ b) = all_ws a && all_ws b.
Proof.
  induction a as [|c a IH]; [done|]. rewrite sapp_cons. cbn [all_ws].
  by rewrite IH, andb_assoc.
Qed.

Lemma trimStart_all_ws l : all_ws l = true → trimStart l = "".
Proof.
  induction l as [|c l IH]; [done|]. cbn [all_ws trimStart]. intros H.
  apply andb_true_iff in H as [-> Hl]. by apply IH.
Qed.

(** A line is kept exactly when it is not made of whitespace only. *)
Lemma nonblank_not_all_ws l : nonblank l = negb (all_ws l).
Proof.
  unfold nonblank. destruct (all_ws l) eqn:E.
  - unfold trim. by rewrite trimStart_all_ws.
  - cbn [negb]. apply negb_true_iff, String.eqb_neq. intros Ht.
    destruct (trim_is_trim_of l) as (lw & rw & Hl & Hlw & Hrw & _).
    rewrite Ht, sapp_nil_l in Hl.
    rewrite Hl, all_ws_sapp, Hlw, Hrw in E. done.
Qed.

(** C4. [parseCSVText] splits the text at bare and carriage-return-prefixed
    line endings (the lines hold no line feed and, joined by line feeds,
    give back the text with every CR LF read as LF), drops exactly the
    lines made of whitespace only, and scans each remaining line by the
    quoting rules of [fields_from]: a double quote toggles the flag,
    except that a doubled one inside quotes emits one literal quote; a
    comma outside quotes ends the field; any other character joins the
    buffer; the last buffer is always emitted, so every row has at least
    one field.  The loop over a line always runs to the end of the
    line. *)
Theorem parseCSVText_scans_as_specified (text : string) :
  join (String LF "") (split_lines text) = crlf_to_lf text
  ∧ Forall (λ l, has_char LF l = false) (split_lines text)
  ∧ parseCSVText text
    = map (fields_from false "")
          (List.filter (λ l, negb (all_ws l)) (split_lines text))
  ∧ Forall (λ l, (String.length l ≤ pos (scan_line l))%nat) (split_lines text)
  ∧ Forall (λ row, (1 ≤ length row)%nat) (parseCSVText text).
Proof.
  split; [apply split_lines_from_join|].
  split; [by apply split_lines_from_no_LF|].
  split; [|split].
  - unfold parseCSVText.
    rewrite (filter_ext nonblank (λ l, negb (all_ws l)))
      by (intros l; apply nonblank_not_all_ws).
    apply map_ext. intros l. apply parse_line_fields.
  - apply Forall_forall. intros l _. apply scan_line_finished.
  - unfold parseCSVText. apply Forall_map, Forall_forall. intros l _.
    pose proof (parse_line_nonempty l). destruct (parse_line l); [done|simpl; lia].
Qed.

Lemma has_char_remove_if_keeps p c s :
  has_char c s = false → has_char c (remove_if p s) = false.
Proof.
  induction s as [|a s IH]; [done|]. cbn [has_char remove_if]. intros H.
  apply orb_false_iff in H as [Ha Hs]. destruct (p a); [by apply IH|].
  cbn [has_char]. by rewrite Ha, IH.
Qed.

Lemma has_char_remove_KHR_keeps c s :
  has_char c s = false → has_char c (remove_KHR s) = false.
Proof.
  induction s as [s IH] using string_length_ind. intros H.
  destruct s as [|a [|b [|d r]]]; [done..| |].
  - cbn [remove_KHR]. done.
  - rewrite remove_KHR_cons3. cbn [has_char] in H.
    apply orb_false_iff in H as [Ha H]. pose proof H as Hbd.
    apply orb_false_iff in H as [Hb H]. apply orb_false_iff in H as [Hd Hr].
    destruct (letter_ci 75 a && letter_ci 72 b && letter_ci 82 d).
    + apply IH; [simpl; lia|done].
    + cbn [has_char]. rewrite Ha. apply IH; [simpl; lia|done].
Qed.

Lemma has_char_remove_if p c s : p c = true → has_char c (remove_if p s) = false.
Proof.
  intros Hp. induction s as [|a s IH]; [done|]. simpl.
  destruct (p a) eqn:Ha; [done|]. simpl. rewrite IH, orb_false_r.
  apply Ascii.eqb_neq. intros ->. congruence.
Qed.

Lemma has_char_app c s t : has_char c (s +:+ t) = has_char c s || has_char c t.
Proof.
  induction s as [|a s IH]; [done|]. rewrite sapp_cons. cbn [has_char].
  by rewrite IH, orb_assoc.
Qed.

Lemma has_char_trim c s : has_char c s = false → has_char c (trim s) = false.
Proof.
  intros H. destruct (trim_is_trim_of s) as (l & r & Hs & _).
  rewrite Hs, !has_char_app in H.
  apply orb_false_iff in H as [_ H]. by apply orb_false_iff in H as [H _].
Qed.

(** C7. [cleanCurrency] maps [undefined] and [null] to the empty string;
    on any other input it takes the string form, drops every double
    quote, deletes every occurrence of [KHR] in any letter case, drops
    every comma and trims the surrounding whitespace; the result holds
    neither a double quote nor a comma.  In particular
    [cleanCurrency('1,234 KHR') = '1234']. *)
Theorem cleanCurrency_strips_and_trims :
  cleanCurrency Undefined = ""
  ∧ cleanCurrency Null = ""
  ∧ (∀ s, is_trim_of
            (without is_comma (delete_occurrences 0 (without is_dquote s)))
            (cleanCurrency (Str s)))
  ∧ (∀ x, is_trim_of
            (without is_comma
               (delete_occurrences 0 (without is_dquote (num_to_string x))))
            (cleanCurrency (Num x)))
  ∧ (∀ v, has_char dquote (cleanCurrency v) = false
          ∧ has_char comma (cleanCurrency v) = false)
  ∧ cleanCurrency (Str "1,234 KHR") = "1234".
Proof.
  split; [done|]. split; [done|].
  assert (Hout : ∀ s,
    has_char dquote (trim (remove_if is_comma (remove_KHR (remove_if is_dquote s))))
      = false
    ∧ has_char comma (trim (remove_if is_comma (remove_KHR (remove_if is_dquote s))))
      = false).
  { intros s. split; apply has_char_trim.
    - apply has_char_remove_if_keeps, has_char_remove_KHR_keeps.
      by apply has_char_remove_if.
    - by apply has_char_remove_if. }
  assert (H : ∀ s, is_trim_of
            (without is_comma (delete_occurrences 0 (without is_dquote s)))
            (trim (remove_if is_comma (remove_KHR (remove_if is_dquote s))))).
  { intros s. rewrite <- !remove_if_without, <- remove_KHR_deletes_occurrences.
    apply trim_is_trim_of. }
  split; [intros s; apply H|]. split; [intros x; apply H|].
  split; [|by vm_compute]. intros [| |s|x]; [done..|apply Hout|apply Hout].
Qed.

(** ** Two-decimal formatting *)

Lemma string_of_uint_digits u : all_digits (NilEmpty.string_of_uint u) = true.
Proof. induction u; simpl; auto. Qed.

Lemma string_of_uint_nonempty u : u ≠ Decimal.Nil → NilEmpty.string_of_uint u ≠ "".
Proof. by destruct u. Qed.

Lemma digits_of_digits z : all_digits (digits_of z) = true.
Proof. apply string_of_uint_digits. Qed.

Lemma digits_of_nonempty z : digits_of z ≠ "".
Proof.
  unfold digits_of. apply string_of_uint_nonempty.
  destruct (Z.to_N z); [done|]. apply DecimalPos.Unsigned.to_uint_nonnil.
Qed.

Lemma digit_char_is_digit d : (0 ≤ d < 10)%Z → is_digit (digit_char d) = true.
Proof.
  intros H.
  assert (d = 0 ∨ d = 1 ∨ d = 2 ∨ d = 3 ∨ d = 4 ∨ d = 5 ∨ d = 6 ∨ d = 7
          ∨ d = 8 ∨ d = 9)%Z as Hd by lia.
  by repeat (destruct Hd as [->|Hd]; [done|]); subst.
Qed.

Lemma digits_point_two_app ds a b seen :
  all_digits ds = true → seen = true ∨ ds ≠ "" →
  is_digit a = true → is_digit b = true →
  digits_point_two seen (ds +:+ String "." (String a (String b ""))) = true.
Proof.
  intros Hds Hseen Ha Hb. revert seen Hseen.
  induction ds as [|c ds IH]; intros seen Hseen.
  - destruct Hseen as [->|?]; [|done]. rewrite sapp_nil_l.
    cbn [digits_point_two]. replace (is_digit ".") with false by done.
    by rewrite Ha, Hb.
  - rewrite sapp_cons. cbn [digits_point_two]. simpl in Hds.
    apply andb_true_iff in Hds as [-> Hds]. apply IH; auto.
Qed.

Lemma is_digit_not_minus c : is_digit c = true → (code c =? 45)%N = false.
Proof.
  unfold is_digit, in_range. intros H. apply andb_true_iff in H as [H _].
  apply N.leb_le in H. apply N.eqb_neq. lia.
Qed.

Lemma toFixed2_two_decimals x :
  below_1e21 x = true → two_decimals (toFixed2 x) = true.
Proof.
  destruct x as [s|s| |neg m e]; [done..|]. unfold below_1e21, toFixed2.
  destruct (ratio_of m e) as [num den]. intros Hlt.
  rewrite Z.leb_antisym, Hlt. cbn [negb].
  set (n := ((200 * num + den) / (2 * den))%Z).
  assert (Ha : is_digit (digit_char (n mod 100 / 10)) = true).
  { apply digit_char_is_digit.
    pose proof (Z.mod_pos_bound n 100 eq_refl).
    split; [apply Z.div_pos; lia|apply Z.div_lt_upper_bound; lia]. }
  assert (Hb : is_digit (digit_char (n mod 10)) = true).
  { apply digit_char_is_digit. apply Z.mod_pos_bound. lia. }
  pose proof (digits_of_digits (n / 100)) as Hd.
  pose proof (digits_of_nonempty (n / 100)) as Hne.
  destruct neg.
  - rewrite sapp_cons, sapp_nil_l. unfold two_decimals.
    replace (code "-" =? 45)%N with true by done.
    apply digits_point_two_app; auto.
  - rewrite sapp_nil_l. unfold two_decimals.
    destruct (digits_of (n / 100)) as [|c ds] eqn:E; [done|].
    rewrite sapp_cons. simpl in Hd. apply andb_true_iff in Hd as [Hc Hds].
    rewrite (is_digit_not_minus c Hc). rewrite <- sapp_cons.
    apply digits_point_two_app; auto. simpl. by rewrite Hc.
Qed.

Lemma formatUSD_parsed v :
  formatUSD v = if is_nan (parsed v) then "" else toFixed2 (parsed v).
Proof. unfold parsed. rewrite <- remove_if_without. by destruct v. Qed.

Lemma below_1e21_not_nan x : below_1e21 x = true → is_nan x = false.
Proof. by destruct x. Qed.

(** C8, as the code has it.  [formatUSD] keeps the digits, points and
    minus signs of the string form of its argument, parses the result as
    a floating-point number, returns the empty string when that is NaN
    and the [toFixed(2)] rendering otherwise; the rendering is a sign,
    digits, a point and exactly two decimals whenever the parsed number is
    below [10^21] in magnitude.  On the derivation path of ['1234'] at rate
    4000 the result is ['0.31']. *)
Theorem formatUSD_two_decimals_below_1e21 (v : value) :
  formatUSD v = (if is_nan (parsed v) then "" else toFixed2 (parsed v))
  ∧ (below_1e21 (parsed v) = true → two_decimals (formatUSD v) = true)
  ∧ formatUSD (Num (num_div (ToNumber (cleanCurrency (Str "1234"))) RATE)) = "0.31".
Proof.
  rewrite (formatUSD_parsed v). split; [done|]. split; [|by vm_compute].
  intros Hlt. rewrite (below_1e21_not_nan _ Hlt). by apply toFixed2_two_decimals.
Qed.

Lemma formatUSD_two_decimals_below_1e21_witness :
  below_1e21 (parsed (Str "12.345")) = true
  ∧ two_decimals (formatUSD (Str "12.345")) = true.
Proof.
  split; [vm_compute; reflexivity|].
  destruct (formatUSD_two_decimals_below_1e21 (Str "12.345")) as (_ & H & _).
  apply H. vm_compute. reflexivity.
Defined.

(** C8 as stated fails for a parsed number of magnitude [10^21] or more:
    the result is the exponent form, without two decimals. *)
Lemma formatUSD_huge_not_two_decimals :
  is_nan (parsed (Str "1000000000000000000000")) = false
  ∧ formatUSD (Str "1000000000000000000000") = "1e+21"
  ∧ two_decimals (formatUSD (Str "1000000000000000000000")) = false.
Proof. by vm_compute. Qed.

(** ** The import mappers *)

Lemma fill_object_lookup header : ∀ idx r (obj : gmap string string) k,
  fill_object header idx r obj !! k =
    match last_column_from k header idx with
    | Some j => Some (cell r j)
    | None => obj !! k
    end.
Proof.
  induction header as [|h hs IH]; intros idx r obj k; [done|].
  cbn [fill_object last_column_from]. rewrite IH.
  destruct (last_column_from k hs (S idx)); [done|].
  destruct (String.eqb_spec h k) as [->|Hne].
  - by rewrite lookup_insert_eq.
  - by rewrite lookup_insert_ne.
Qed.

Lemma prop_row_object header r k :
  prop (row_object header r) k = value_of (column_value header r k).
Proof.
  unfold prop, row_object, column_value. rewrite fill_object_lookup.
  by destruct (last_column_from k header 0).
Qed.

Lemma js_or_value_of o b :
  js_or (value_of o) b = if filled o then value_of o else b.
Proof. reflexivity. Qed.

Lemma prop_lookup (obj : gmap string string) k : prop obj k = value_of (obj !! k).
Proof. reflexivity. Qed.

(** C1, as the code has it.  In both CSV paths the usd field is
    [formatUSD] of the explicit [usd] column when that column is present
    and non-empty, and otherwise [formatUSD] of the number
    [cleanCurrency(cell under 'price/unit') / 4000]: the derivation reads
    the ['price/unit'] column only, whichever alias supplied the khr
    field.  In the spreadsheet path it is [formatUSD] of a non-empty [USD]
    cell, otherwise of the numeric characters of a non-empty [Price/Unit]
    cell divided by 4000, otherwise the empty string. *)
Theorem usd_derived_from_price_unit_column (header r : list string)
    (row : gmap string string) :
  let explicit := column_value header r "usd" in
  let derived :=
    formatUSD (Num (num_div
      (ToNumber (cleanCurrency (value_of (column_value header r "price/unit"))))
      RATE)) in
  usd (map_row_manual header r)
    = (if filled explicit then formatUSD (value_of explicit) else derived)
  ∧ usd (map_row_default header r) = usd (map_row_manual header r)
  ∧ usd (map_row_sheet row)
    = if filled (row !! "USD") then formatUSD (value_of (row !! "USD"))
      else if filled (row !! "Price/Unit")
      then formatUSD (Num (num_div
             (ToNumber (without (fun c => negb (is_numeric_char c))
                          (to_string (value_of (row !! "Price/Unit")))))
             RATE))
      else "".
Proof.
  cbn zeta. split; [|split; [done|]].
  - unfold map_row_manual, csv_usd_source. cbn [usd].
    rewrite !prop_row_object, js_or_value_of.
    by destruct (filled (column_value header r "usd")).
  - unfold map_row_sheet. cbn [usd]. rewrite !prop_lookup, js_or_value_of.
    rewrite remove_if_without. fold (filled (row !! "Price/Unit")).
    destruct (filled (row !! "USD")); [done|].
    by destruct (filled (row !! "Price/Unit")).
Qed.

(** C1 as stated fails when the khr value comes from another alias than
    ['price/unit']: the row [A,8000] under the header [name,khr] gets usd
    ['0.00'], not the ['2.00'] derived from its resolved khr source. *)
Lemma usd_ignores_khr_alias :
  usd (map_row_manual ["name"; "khr"] ["A"; "8000"]) = "0.00"
  ∧ khr_source (row_object ["name"; "khr"] ["A"; "8000"]) = Str "8000"
  ∧ usd_from_resolved_khr (row_object ["name"; "khr"] ["A"; "8000"]) = "2.00"
  ∧ usd (map_row_manual ["name"; "khr"] ["A"; "8000"])
    ≠ usd_from_resolved_khr (row_object ["name"; "khr"] ["A"; "8000"]).
Proof. by vm_compute. Qed.

(** C6.  The manual CSV import resolves the khr field from the first
    filled column among ['price/unit'], ['khr'] and ['price (khr)']; the
    bootstrap loader tries ['price/unit'] and ['khr'] only.  For the file
    [name,price (khr)] / [A,8000] the manual import yields khr ['8000'],
    the bootstrap loader the empty string. *)
Theorem bootstrap_misses_price_khr_alias (header r : list string) :
  let pu := column_value header r "price/unit" in
  let k := column_value header r "khr" in
  let pk := column_value header r "price (khr)" in
  let csv := "name,price (khr)" +:+ String LF "A,8000" in
  khr (map_row_manual header r)
    = cleanCurrency (if filled pu then value_of pu
                     else if filled k then value_of k
                     else if filled pk then value_of pk else Str "")
  ∧ khr (map_row_default header r)
    = cleanCurrency (if filled pu then value_of pu
                     else if filled k then value_of k else Str "")
  ∧ books (fst (importFile (Some (File "books.csv" (Some csv) None))
                           (State [] [] None)))
    = [Some (Book "A" "8000" "0.00")]
  ∧ books (fst (loadDefaultCSV (Fetched true (Some csv)) (State [] [] None)))
    = [Some (Book "A" "" "0.00")].
Proof.
  cbn zeta. split; [|split; [|by vm_compute]].
  - unfold map_row_manual. cbn [khr]. rewrite !prop_row_object.
    destruct (column_value header r "price/unit") as [[|??]|];
      destruct (column_value header r "khr") as [[|??]|];
      by destruct (column_value header r "price (khr)") as [[|??]|].
  - unfold map_row_default. cbn [khr]. rewrite !prop_row_object.
    destruct (column_value header r "price/unit") as [[|??]|];
      by destruct (column_value header r "khr") as [[|??]|].
Qed.

(** ** The store and its handlers *)

Lemma or_empty_id s : or_empty s = s.
Proof. by destruct s. Qed.

Lemma composite_lower b :
  composite b = toLowerCase (name b +:+ " " +:+ khr b +:+ " " +:+ usd b).
Proof. unfold composite. by rewrite !or_empty_id. Qed.

Lemma indexed_build st : indexed (buildSearchIndex st).
Proof. reflexivity. Qed.

Lemma indexed_step st o : indexed st → indexed (step st o).
Proof.
  intros Hst. destruct o as [idx nm k u|i c|f]; cbn [step].
  - unfold saveFromModal. by destruct (String.eqb (trim (or_empty nm)) "").
  - unfold deleteBook. by destruct c.
  - unfold importFile. destruct f as [f|]; [|done].
    destruct (endsWith _ _).
    + destruct (file_text f) as [txt|]; [|done].
      by destruct (length (parseCSVText txt) =? 0)%nat.
    + by destruct (file_sheet f).
Qed.

Lemma indexed_run ops : ∀ st, indexed st → indexed (run ops st).
Proof.
  induction ops as [|o ops IH]; intros st Hst; [done|].
  apply IH. by apply indexed_step.
Qed.

Lemma dense_map_Some {A} (l : list A) : dense (map Some l) = Some l.
Proof. induction l as [|x l IH]; [done|]. simpl. by rewrite IH. Qed.

Lemma saveFromModal_run_ok idx nm k u st :
  saveFromModal_run true idx nm k u st = saveFromModal idx nm k u st.
Proof. reflexivity. Qed.

Lemma deleteBook_run_ok i c st : deleteBook_run true i c st = deleteBook i c st.
Proof. reflexivity. Qed.

Lemma importFile_run_ok f st : importFile_run true f st = importFile f st.
Proof. reflexivity. Qed.

Lemma loadDefaultCSV_run_ok f st : loadDefaultCSV_run true f st = loadDefaultCSV f st.
Proof. reflexivity. Qed.

Lemma step_run_ok st o : step_run st (o, true) = step st o.
Proof. by destruct o. Qed.

Lemma indexed_run_all ops : ∀ st,
  Forall (λ o : op * bool, snd o = true) ops → indexed st →
  indexed (run_all ops st).
Proof.
  induction ops as [|[o ok] ops IH]; intros st Hops Hst; [done|].
  inversion Hops as [|?? Hok Hops']; subst. cbn [snd] in Hok. subst ok.
  cbn [run_all fold_left]. apply IH; [done|]. rewrite step_run_ok.
  by apply indexed_step.
Qed.

Lemma indexed_init ok loaded slot f st : init ok loaded slot f = Some st → indexed st.
Proof.
  unfold init. destruct (dense loaded); [|done]. intros [= <-]. apply indexed_build.
Qed.

Lemma failed_write_keeps_index st o :
  searchIndex (step_run st (o, false)) = searchIndex st.
Proof.
  destruct o as [idx nm k u|i c|f]; cbn [step_run].
  - unfold saveFromModal_run. by destruct (String.eqb (trim (or_empty nm)) "").
  - unfold deleteBook_run. by destruct c.
  - unfold importFile_run. destruct f as [f|]; [|done].
    destruct (endsWith _ _).
    + destruct (file_text f) as [txt|]; [|done].
      by destruct (length (parseCSVText txt) =? 0)%nat.
    + by destruct (file_sheet f).
Qed.

(** C3, as the code has it.  After an [init] that built the index (the
    reloaded array holds no [null] entry) and any sequence of add, edit,
    delete and import operations whose storage writes succeed, the search
    index has the length of the store; at every position where the store
    holds a record it holds the lowercase of name, khr and usd of that
    record, joined by single spaces; at a hole of the store (left by an
    edit beyond the end) it has a hole.  An operation whose write throws
    leaves the index as it was. *)
Theorem searchIndex_mirrors_books_when_saved (ops : list (op * bool)) (ok : bool)
    (loaded : list (option book)) (slot : option (list (option book)))
    (f : fetch_outcome) (st0 : state) :
  init ok loaded slot f = Some st0 →
  Forall (λ o : op * bool, snd o = true) ops →
  let st := run_all ops st0 in
  length (searchIndex st) = length (books st)
  ∧ (∀ i b, books st !! i = Some (Some b) →
       searchIndex st !! i
       = Some (Some (toLowerCase (name b +:+ " " +:+ khr b +:+ " " +:+ usd b))))
  ∧ (∀ i, books st !! i = Some None → searchIndex st !! i = Some None)
  ∧ (∀ o, searchIndex (step_run st (o, false)) = searchIndex st).
Proof.
  intros Hinit Hops. cbn zeta.
  pose proof (indexed_run_all ops _ Hops (indexed_init _ _ _ _ _ Hinit)) as H.
  split; [|split; [|split]].
  - unfold indexed, array_map in H. rewrite H. by rewrite length_map.
  - intros i b Hb. unfold indexed, array_map in H.
    by rewrite H, list_lookup_fmap, Hb, <- composite_lower.
  - intros i Hb. unfold indexed, array_map in H.
    by rewrite H, list_lookup_fmap, Hb.
  - intros o. apply failed_write_keeps_index.
Qed.

Lemma searchIndex_mirrors_books_when_saved_witness :
  let st := run_all [(Save "" "Alpha" "4,000" "1", true);
                     (Save "0" "Beta" "8000 KHR" "2", true);
                     (Delete 1 true, true)]
                    (State [] [] None) in
  books st !! 0%nat = Some (Some (Book "Beta" "8000" "2.00"))
  ∧ searchIndex st !! 0%nat = Some (Some "beta 8000 2.00").
Proof.
  cbn zeta. split; [by vm_compute|].
  destruct (searchIndex_mirrors_books_when_saved
              [(Save "" "Alpha" "4,000" "1", true);
               (Save "0" "Beta" "8000 KHR" "2", true);
               (Delete 1 true, true)] true [] None FetchRejected
              (State [] [] None) eq_refl ltac:(repeat constructor))
    as (_ & H & _).
  rewrite (H 0%nat (Book "Beta" "8000" "2.00")); [reflexivity|by vm_compute].
Defined.

(** C3 as stated fails.  After an add and an edit at index 3 the store
    has holes at positions 1 and 2, where there is no record for the
    index entry to describe; and after an add whose write throws the
    store has one record while the index is still empty. *)
Lemma searchIndex_stale_or_holed :
  init true [] None FetchRejected = Some (State [] [] None)
  ∧ ¬ index_as_stated
        (run_all [(Save "" "Alpha" "4000" "1", true);
                  (Save "3" "Gamma" "1" "1", true)] (State [] [] None))
  ∧ ¬ index_as_stated
        (run_all [(Save "" "Alpha" "4000" "1", false)] (State [] [] None)).
Proof.
  split; [reflexivity|]. split.
  - intros [_ H]. destruct (H 1%nat) as (b & Hb & _).
    + vm_compute. lia.
    + vm_compute in Hb. discriminate.
  - intros [H _]. vm_compute in H. discriminate.
Qed.

Lemma saveFromModal_edit idx nm k u st :
  idx ≠ "" → trim nm ≠ "" →
  saveFromModal idx nm k u st =
    (buildSearchIndex (saveToStorage (set_books
       (array_store (books st) idx
          (Book (trim nm) (cleanCurrency (Str k)) (formatUSD (Str u)))) st)), []).
Proof.
  intros Hidx Hnm. unfold saveFromModal. rewrite or_empty_id.
  apply String.eqb_neq in Hidx, Hnm. by rewrite Hidx, Hnm.
Qed.




(** C9, as the code has it.  [loadDefaultCSV] never raises a notice,
    whether the write succeeds or throws; it leaves a non-empty store as
    it is; on a rejected fetch, a response that is not OK or a body that
    cannot be read it leaves the state as it is; on an empty store it
    installs the mapped records of a fetched CSV of two rows or more, and
    persists them when the write succeeds: when the write throws, the
    store is replaced all the same and the slot keeps its old content.
    [init] keeps a non-empty reloaded array of records. *)
Theorem loadDefaultCSV_installs_on_empty_store_only :
  (∀ ok f st, snd (loadDefaultCSV_run ok f st) = [])
  ∧ (∀ ok f b bs si slot,
       fst (loadDefaultCSV_run ok f (State (b :: bs) si slot))
       = State (b :: bs) si slot)
  ∧ (∀ ok st body,
       fst (loadDefaultCSV_run ok FetchRejected st) = st
       ∧ fst (loadDefaultCSV_run ok (Fetched false body) st) = st
       ∧ fst (loadDefaultCSV_run ok (Fetched true None) st) = st)
  ∧ (∀ ok txt si slot,
       fst (loadDefaultCSV_run ok (Fetched true (Some txt)) (State [] si slot))
       = if (length (parseCSVText txt) <=? 1)%nat then State [] si slot
         else let bs := map Some (map_rows map_row_default (parseCSVText txt)) in
              State bs si (if ok then Some bs else slot))
  ∧ (∀ ok f b bs slot,
       init ok (map Some (b :: bs)) slot f
       = Some (buildSearchIndex (State (map Some (b :: bs)) [] slot))).
Proof.
  assert (Hkeep : ∀ ok f b bs si slot,
    fst (loadDefaultCSV_run ok f (State (b :: bs) si slot)) = State (b :: bs) si slot).
  { intros ok [|[] [txt|]] b bs si slot; try done. unfold loadDefaultCSV_run.
    by destruct (length (parseCSVText txt) <=? 1)%nat. }
  split.
  { intros ok [|[] [txt|]] st; try done. unfold loadDefaultCSV_run.
    destruct (length (parseCSVText txt) <=? 1)%nat; [done|].
    destruct (length (books st) =? 0)%nat; [|done]. by destruct ok. }
  split; [exact Hkeep|]. split; [by intros ok st []|]. split.
  - intros ok txt si slot. unfold loadDefaultCSV_run.
    destruct (length (parseCSVText txt) <=? 1)%nat; [done|]. by destruct ok.
  - intros ok f b bs slot. unfold init. rewrite dense_map_Some.
    change (map Some (b :: bs)) with (Some b :: map Some bs). by rewrite Hkeep.
Qed.

(** C9 as stated fails when the error thrown is that of the write: on an
    empty store and a fetched file of two rows the store is replaced by
    the fetched record although the write threw; only the slot is left
    as it was. *)
Lemma loadDefaultCSV_replaces_store_before_write :
  let csv := "name,khr" +:+ String LF "A,1" in
  fst (loadDefaultCSV_run false (Fetched true (Some csv)) (State [] [] None))
  = State [Some (Book "A" "1" "0.00")] [] None
  ∧ books (fst (loadDefaultCSV_run false (Fetched true (Some csv)) (State [] [] None)))
    ≠ books (State [] [] None).
Proof. by vm_compute. Qed.




(** ** Export and import *)

Lemma trimStart_fixed t : starts_ws t = false → trimStart t = t.
Proof. destruct t as [|c t]; [done|]. simpl. by intros ->. Qed.

Lemma trimEnd_fixed t : ends_ws t = false → trimEnd t = t.
Proof.
  induction t as [|c t IH]; [done|]. cbn [ends_ws trimEnd].
  destruct t as [|c' t'].
  - simpl. by intros ->.
  - intros H. by rewrite (IH H).
Qed.

Lemma trim_idempotent s : trim (trim s) = trim s.
Proof.
  destruct (trim_is_trim_of s) as (l & r & _ & _ & _ & Hs & He).
  unfold trim at 1. by rewrite (trimStart_fixed _ Hs), (trimEnd_fixed _ He).
Qed.

Lemma trim_nonblank c s : is_ws c = false → trim (String c s) ≠ "".
Proof.
  intros Hc. unfold trim. cbn [trimStart]. rewrite Hc. cbn [trimEnd].
  destruct (trimEnd s); [by rewrite Hc|done].
Qed.

Lemma last_char_app s c t : last_char (s +:+ String c t) = last_char (String c t).
Proof.
  induction s as [|a s IH]; [done|]. rewrite sapp_cons. cbn [last_char].
  rewrite IH. destruct s; done.
Qed.

Lemma split_lines_from_line cur l rest :
  has_char LF l = false → last_char l ≠ Some CR →
  split_lines_from cur (l +:+ String LF rest)
  = (cur +:+ l) :: split_lines_from "" rest.
Proof.
  revert cur. induction l as [|c l IH]; intros cur Hlf Hcr.
  { rewrite sapp_nil_l, sapp_nil_r. by cbn [split_lines_from]. }
  cbn [has_char] in Hlf. apply orb_false_iff in Hlf as [Hc Hlf].
  rewrite sapp_cons. cbn [split_lines_from]. rewrite Hc.
  destruct l as [|c' l'].
  - rewrite sapp_nil_l. cbn [last_char] in Hcr.
    assert (Ascii.eqb c CR = false) as -> by (apply Ascii.eqb_neq; congruence).
    cbn [andb]. specialize (IH (snoc cur c) eq_refl).
    rewrite sapp_nil_l in IH. rewrite IH by done. by rewrite snoc_app.
  - rewrite sapp_cons. cbn [has_char] in Hlf.
    apply orb_false_iff in Hlf as [Hc' Hlf]. rewrite Hc', andb_false_r.
    rewrite <- sapp_cons, IH, snoc_app; [done| |done].
    cbn [has_char]. by rewrite Hc', Hlf.
Qed.

Lemma split_lines_from_last cur l :
  has_char LF l = false → split_lines_from cur l = [cur +:+ l].
Proof.
  revert cur. induction l as [|c l IH]; intros cur Hlf.
  { by rewrite sapp_nil_r. }
  cbn [has_char] in Hlf. apply orb_false_iff in Hlf as [Hc Hlf].
  cbn [split_lines_from]. rewrite Hc. destruct l as [|c' l'].
  - rewrite IH by done. by rewrite snoc_app.
  - pose proof Hlf as Hlf'. cbn [has_char] in Hlf'.
    apply orb_false_iff in Hlf' as [Hc' _]. rewrite Hc', andb_false_r.
    rewrite IH by done. by rewrite snoc_app.
Qed.

Lemma split_lines_join ls :
  ls ≠ [] →
  Forall (λ l, has_char LF l = false ∧ last_char l ≠ Some CR) ls →
  split_lines (join (String LF "") ls) = ls.
Proof.
  intros Hne Hall. unfold split_lines.
  induction Hall as [|l ls [Hlf Hcr] Hall IH]; [done|].
  destruct ls as [|l' ls'].
  - cbn [join]. by rewrite split_lines_from_last.
  - rewrite join_cons by done. change (String LF "" +:+ ?x) with (String LF x).
    rewrite split_lines_from_line by done. rewrite sapp_nil_l. f_equal.
    by apply IH.
Qed.

(** A quoted field, read back up to its closing quote. *)
Lemma fields_from_quoted f : ∀ cur rest,
  next_is_dquote rest = false →
  fields_from true cur (double_quotes f +:+ String dquote rest)
  = fields_from false (cur +:+ f) rest.
Proof.
  induction f as [|c f IH]; intros cur rest Hrest.
  - rewrite sapp_nil_r. cbn [double_quotes]. rewrite sapp_nil_l.
    cbn [fields_from]. replace (Ascii.eqb dquote dquote) with true by done.
    destruct rest as [|c' r']; [done|]. cbn [next_is_dquote] in Hrest.
    by rewrite Hrest.
  - cbn [double_quotes]. destruct (Ascii.eqb c dquote) eqn:Hc.
    + apply Ascii.eqb_eq in Hc as ->. rewrite !sapp_cons. cbn [fields_from].
      replace (Ascii.eqb dquote dquote) with true by done. cbn [andb].
      rewrite IH by done. by rewrite snoc_app.
    + rewrite sapp_cons. cbn [fields_from]. rewrite Hc. cbn [negb].
      rewrite andb_false_r, IH by done. by rewrite snoc_app.
Qed.

Lemma fields_from_cell f rest :
  next_is_dquote rest = false →
  fields_from false "" (quote_cell f +:+ rest) = fields_from false f rest.
Proof.
  intros Hrest. unfold quote_cell. rewrite !sapp_cons, sapp_assoc.
  change (String dquote "" +:+ rest) with (String dquote rest).
  cbn [fields_from]. replace (Ascii.eqb dquote dquote) with true by done.
  cbn [andb negb].
  assert (H : fields_from true "" (double_quotes f +:+ String dquote rest)
              = fields_from false f rest).
  { by rewrite fields_from_quoted. }
  by destruct (double_quotes f +:+ String dquote rest).
Qed.

Lemma fields_from_row r :
  r ≠ [] → fields_from false "" (join "," (map quote_cell r)) = r.
Proof.
  induction r as [|f r IH]; [done|]. intros _. cbn [map].
  destruct r as [|f' r'].
  - cbn [map join]. rewrite <- (sapp_nil_r (quote_cell f)).
    by rewrite fields_from_cell.
  - rewrite join_cons by done.
    change ("," +:+ ?x) with (String comma x).
    rewrite fields_from_cell by done. cbn [fields_from].
    replace (Ascii.eqb comma dquote) with false by done.
    replace (Ascii.eqb comma comma) with true by done. cbn [andb negb].
    f_equal. by apply IH.
Qed.

Lemma has_char_double_quotes f : has_char LF (double_quotes f) = has_char LF f.
Proof.
  induction f as [|c f IH]; [done|]. cbn [double_quotes].
  destruct (Ascii.eqb c dquote) eqn:Hc; cbn [has_char]; rewrite IH; [|done].
  apply Ascii.eqb_eq in Hc as ->. done.
Qed.

Lemma has_char_quote_cell f : has_char LF (quote_cell f) = has_char LF f.
Proof.
  unfold quote_cell. rewrite sapp_cons. cbn [has_char].
  rewrite has_char_app, has_char_double_quotes. cbn [has_char].
  replace (Ascii.eqb dquote LF) with false by done. by rewrite !orb_false_r.
Qed.

Lemma csv_line_no_LF r :
  Forall (λ f, has_char LF f = false) r → has_char LF (csv_line r) = false.
Proof.
  unfold csv_line. induction 1 as [|f r Hf Hr IH]; [done|]. cbn [map].
  destruct r as [|f' r'].
  - cbn [map join]. by rewrite has_char_quote_cell.
  - rewrite join_cons by done. rewrite !has_char_app, has_char_quote_cell, Hf, IH.
    done.
Qed.

Lemma last_char_quote_cell g : last_char (quote_cell g) = Some dquote.
Proof.
  unfold quote_cell. rewrite sapp_cons.
  change (String dquote (double_quotes g +:+ String dquote ""))
    with (String dquote (double_quotes g) +:+ String dquote "").
  by rewrite last_char_app.
Qed.

Lemma quote_cell_cons g : ∃ s, quote_cell g = String dquote s.
Proof. unfold quote_cell. rewrite sapp_cons. by eexists. Qed.

Lemma csv_line_cons f r : ∃ s, csv_line (f :: r) = String dquote s.
Proof.
  unfold csv_line. cbn [map]. destruct (quote_cell_cons f) as [s Hs].
  destruct (map quote_cell r); [by exists s|].
  rewrite join_cons by done. rewrite Hs, sapp_cons. by eexists.
Qed.

Lemma csv_line_last r : r ≠ [] → last_char (csv_line r) = Some dquote.
Proof.
  induction r as [|f r IH]; [done|]. intros _.
  destruct r as [|f' r'].
  - apply last_char_quote_cell.
  - unfold csv_line in *. cbn [map] in *. rewrite join_cons by done.
    change ("," +:+ ?x) with (String comma x).
    rewrite last_char_app. specialize (IH ltac:(done)).
    destruct (csv_line_cons f' r') as [s Hs]. unfold csv_line in Hs.
    cbn [map] in Hs. rewrite Hs in IH |- *. done.
Qed.

Lemma csv_line_nonblank r : r ≠ [] → nonblank (csv_line r) = true.
Proof.
  intros Hr. unfold nonblank. apply negb_true_iff, String.eqb_neq.
  destruct r as [|f r]; [done|]. destruct (csv_line_cons f r) as [s ->].
  by apply trim_nonblank.
Qed.

Lemma filter_all {A} (p : A → bool) l :
  Forall (λ x, p x = true) l → List.filter p l = l.
Proof. induction 1 as [|x l Hx Hl IH]; [done|]. simpl. by rewrite Hx, IH. Qed.

Lemma parseCSVText_csv_text rows :
  rows ≠ [] →
  Forall (λ r, r ≠ [] ∧ Forall (λ f, has_char LF f = false) r) rows →
  parseCSVText (csv_text rows) = rows.
Proof.
  intros Hne Hrows. unfold parseCSVText, csv_text.
  rewrite split_lines_join.
  - rewrite filter_all.
    + rewrite map_map. rewrite <- (map_id rows) at 2. apply map_ext_Forall.
      eapply Forall_impl; [exact Hrows|]. intros r [Hr _]. simpl.
      rewrite parse_line_fields. by apply fields_from_row.
    + apply Forall_map. eapply Forall_impl; [exact Hrows|].
      intros r [Hr _]. by apply csv_line_nonblank.
  - by destruct rows.
  - apply Forall_map. eapply Forall_impl; [exact Hrows|]. intros r [Hr Hf]. simpl.
    split; [by apply csv_line_no_LF|]. rewrite csv_line_last by done. done.
Qed.

Lemma cell_trim r i s : r !! i = Some s → cell r i = trim s.
Proof. unfold cell. intros ->. by destruct s. Qed.

Lemma cleanCurrency_trimmed v : trim (cleanCurrency v) = cleanCurrency v.
Proof. destruct v; try done; apply trim_idempotent. Qed.

Lemma map_row_manual_stable b :
  stable b →
  map_row_manual (normalize_header export_header) (export_row b) = b.
Proof.
  destruct b as [n k u]. unfold stable. cbn [name khr usd].
  intros (_ & _ & _ & Hn & Hk & Hu & Htu & Hfu).
  assert (Htk : trim k = k) by (rewrite <- Hk; apply cleanCurrency_trimmed).
  unfold map_row_manual, csv_name, csv_usd_source, export_row. cbn [name khr usd].
  rewrite !or_empty_id, !prop_row_object.
  replace (normalize_header export_header)
    with ["book title"; "price/unit"; "usd"] by (by vm_compute).
  unfold column_value.
  replace (last_column_from "book title" ["book title"; "price/unit"; "usd"] 0)
    with (Some 0%nat) by (by vm_compute).
  replace (last_column_from "title" ["book title"; "price/unit"; "usd"] 0)
    with (@None nat) by (by vm_compute).
  replace (last_column_from "name" ["book title"; "price/unit"; "usd"] 0)
    with (@None nat) by (by vm_compute).
  replace (last_column_from "price/unit" ["book title"; "price/unit"; "usd"] 0)
    with (Some 1%nat) by (by vm_compute).
  replace (last_column_from "khr" ["book title"; "price/unit"; "usd"] 0)
    with (@None nat) by (by vm_compute).
  replace (last_column_from "price (khr)" ["book title"; "price/unit"; "usd"] 0)
    with (@None nat) by (by vm_compute).
  replace (last_column_from "usd" ["book title"; "price/unit"; "usd"] 0)
    with (Some 2%nat) by (by vm_compute).
  cbn [fmap option_fmap option_map value_of].
  rewrite (cell_trim [n; k; u] 0 n), (cell_trim [n; k; u] 1 k),
    (cell_trim [n; k; u] 2 u) by done.
  rewrite Hn, Htk, Htu. f_equal.
  - by destruct n.
  - rewrite <- Hk at 2. by destruct k.
  - rewrite <- Hfu at 2. unfold js_or. cbn [truthy].
    apply String.eqb_neq in Hu. by rewrite Hu.
Qed.

Lemma export_row_cells b :
  stable b → export_row b ≠ [] ∧ Forall (λ f, has_char LF f = false) (export_row b).
Proof.
  intros (Hn & Hk & Hu & _). split; [done|]. unfold export_row.
  rewrite !or_empty_id. by repeat constructor.
Qed.

(** C2, as the code has it.  For a non-empty sequence of records that the
    import normalisations leave alone (no line feed in a field, trimmed
    name, khr a fixed point of [cleanCurrency], usd non-empty, trimmed and
    a fixed point of [formatUSD]), exporting and importing the exported
    file gives back the same sequence, and so does doing it again. *)
Theorem export_import_roundtrip (bs : list book) :
  bs ≠ [] → Forall stable bs →
  export_then_import (map Some bs) = Some (map Some bs)
  ∧ export_then_import (map Some bs) ≫= export_then_import = Some (map Some bs).
Proof.
  intros Hne Hst.
  assert (H : export_then_import (map Some bs) = Some (map Some bs)).
  { unfold export_then_import, exportCSV. cbn [books].
    rewrite length_map. destruct bs as [|b0 bs0] eqn:Ebs; [done|].
    rewrite <- Ebs in *. clear Ebs b0 bs0.
    replace (length bs =? 0)%nat with false
      by (symmetry; apply Nat.eqb_neq; destruct bs; simpl; [done|lia]).
    rewrite dense_map_Some. unfold importFile. cbn [file_name file_text].
    replace (endsWith (toLowerCase (or_empty "books_export.csv")) ".csv")
      with true by (by vm_compute).
    rewrite parseCSVText_csv_text.
    - cbn [length Nat.eqb map_rows fst postImportFinish buildSearchIndex
           saveToStorage set_books books].
      do 2 f_equal. rewrite map_map. rewrite <- (map_id bs) at 2.
      apply map_ext_Forall. eapply Forall_impl; [exact Hst|].
      intros b Hb. simpl. by apply map_row_manual_stable.
    - done.
    - constructor; [split; [done|by repeat constructor]|].
      apply Forall_map. eapply Forall_impl; [exact Hst|].
      intros b Hb. by apply export_row_cells. }
  split; [exact H|]. rewrite H. exact H.
Qed.

Lemma export_import_roundtrip_witness :
  export_then_import
    [Some (Book "Alpha" "4000" "1.00"); Some (Book "Beta" "8000" "2.50")]
  = Some [Some (Book "Alpha" "4000" "1.00"); Some (Book "Beta" "8000" "2.50")].
Proof.
  assert (Hs : ∀ n k u,
    (has_char LF n || has_char LF k || has_char LF u = false)
    ∧ String.eqb (trim n) n && String.eqb (cleanCurrency (Str k)) k
      && negb (String.eqb u "") && String.eqb (trim u) u
      && String.eqb (formatUSD (Str u)) u = true →
    stable (Book n k u)).
  { intros n k u [H1 H2]. unfold stable. cbn [name khr usd].
    apply orb_false_iff in H1 as [H1 Hu]. apply orb_false_iff in H1 as [Hn Hk].
    repeat (apply andb_true_iff in H2 as [H2 ?]).
    repeat match goal with
    | H : String.eqb _ _ = true |- _ => apply String.eqb_eq in H
    | H : negb _ = true |- _ => apply negb_true_iff, String.eqb_neq in H
    end.
    repeat split; assumption. }
  apply (export_import_roundtrip
    [Book "Alpha" "4000" "1.00"; Book "Beta" "8000" "2.50"]).
  - discriminate.
  - repeat constructor; apply Hs; vm_compute; split; reflexivity.
Defined.

(** C2 as stated fails.  A record saved with empty price fields comes
    back from export and import with usd ['0.00']; and a record whose khr
    field still reads [KHR] after one cleaning loses it on the way, so a
    second round differs from the first. *)
Lemma export_import_changes_records :
  export_then_import [Some (Book "A" "" "")] = Some [Some (Book "A" "" "0.00")]
  ∧ export_then_import [Some (Book "A" "" "")] ≠ Some [Some (Book "A" "" "")]
  ∧ fst (saveFromModal "" "A" "" "" (State [] [] None))
    = State [Some (Book "A" "" "")] [Some "a  "] (Some [Some (Book "A" "" "")])
  ∧ export_then_import [Some (Book "B" "KKHRHR" "1.00")]
    = Some [Some (Book "B" "KHR" "1.00")]
  ∧ export_then_import [Some (Book "B" "KHR" "1.00")]
    = Some [Some (Book "B" "" "1.00")].
Proof. by vm_compute. Qed.

(** * Further properties of the code *)

(** ** escapeHtml *)

Lemma replace_char_app c rep a b :
  replace_char c rep (a +:+ b) = replace_char c rep a +:+ replace_char c rep b.
Proof.
  induction a as [|x a IH]; [done|]. rewrite sapp_cons. cbn [replace_char].
  destruct (Ascii.eqb x c); by rewrite IH, ?sapp_assoc.
Qed.

Lemma escapeHtml_cons c s : escapeHtml (String c s) = escape_char c +:+ escapeHtml s.
Proof.
  unfold escapeHtml, escape_char. cbn [replace_char].
  destruct (Ascii.eqb c amp) eqn:Ha.
  { by rewrite !replace_char_app. }
  cbn [replace_char]. destruct (Ascii.eqb c lt_sign) eqn:Hl.
  { by rewrite !replace_char_app. }
  cbn [replace_char]. by destruct (Ascii.eqb c gt_sign) eqn:Hg.
Qed.

Lemma unescapeHtml_escape_char c t :
  unescapeHtml (escape_char c +:+ t) = String c (unescapeHtml t).
Proof.
  unfold escape_char. destruct (Ascii.eqb c amp) eqn:Ha.
  { apply Ascii.eqb_eq in Ha as ->. done. }
  destruct (Ascii.eqb c lt_sign) eqn:Hl.
  { apply Ascii.eqb_eq in Hl as ->. done. }
  destruct (Ascii.eqb c gt_sign) eqn:Hg.
  { apply Ascii.eqb_eq in Hg as ->. done. }
  rewrite sapp_cons, sapp_nil_l. cbn [unescapeHtml]. by rewrite Ha.
Qed.

(** X1. The escaped text holds no angle bracket: nothing in a name can
    open or close a tag in the rendered row. *)
Theorem escapeHtml_no_angle_brackets (s : string) :
  has_char lt_sign (escapeHtml s) = false
  ∧ has_char gt_sign (escapeHtml s) = false.
Proof.
  induction s as [|c s [IHl IHg]]; [done|]. rewrite escapeHtml_cons, !has_char_app.
  rewrite IHl, IHg, !orb_false_r. unfold escape_char.
  destruct (Ascii.eqb c amp) eqn:Ha; [done|].
  destruct (Ascii.eqb c lt_sign) eqn:Hl; [done|].
  destruct (Ascii.eqb c gt_sign) eqn:Hg; [done|].
  cbn [has_char]. by rewrite Hl, Hg.
Qed.

(** X2. Escaping loses nothing: reading the three entities back gives the
    original text, so different names never render alike. *)
Theorem escapeHtml_reversible (s t : string) :
  unescapeHtml (escapeHtml s) = s
  ∧ (escapeHtml s = escapeHtml t → s = t).
Proof.
  assert (H : ∀ u, unescapeHtml (escapeHtml u) = u).
  { induction u as [|c u IH]; [done|].
    by rewrite escapeHtml_cons, unescapeHtml_escape_char, IH. }
  split; [apply H|]. intros E. by rewrite <- (H s), <- (H t), E.
Qed.

Lemma escapeHtml_reversible_witness :
  escapeHtml "Tom & Jerry <2>" = "Tom &amp; Jerry &lt;2&gt;"
  ∧ unescapeHtml (escapeHtml "Tom & Jerry <2>") = "Tom & Jerry <2>"
  ∧ "Tom & Jerry <2>" = "Tom & Jerry <2>".
Proof.
  split; [reflexivity|].
  destruct (escapeHtml_reversible "Tom & Jerry <2>" "Tom & Jerry <2>") as [H1 H2].
  split; [exact H1|exact (H2 eq_refl)].
Defined.

(** ** Search *)

Lemma element_app_here {A} (pre : list (option A)) x rest :
  element (pre ++ x :: rest) (length pre) = x.
Proof. unfold element. by rewrite list_lookup_middle. Qed.

Lemma search_loop_dense q : ∀ rest pre filtered,
  search_loop (length pre) (array_map composite (map Some rest)) q
              (pre ++ map Some rest) filtered
  = Some (filtered
          ++ map Some (List.filter (λ b, includes (composite b) q) rest)).
Proof.
  induction rest as [|b rest IH]; intros pre filtered.
  { simpl. by rewrite app_nil_r. }
  cbn [map array_map option_map search_loop List.filter].
  rewrite element_app_here.
  specialize (IH (pre ++ [Some b])). rewrite length_app in IH.
  cbn [length] in IH. rewrite Nat.add_1_r, <- (assoc_L (++)) in IH.
  cbn [app] in IH. unfold array_map in IH. rewrite IH.
  destruct (includes (composite b) q); [|done].
  by rewrite <- (assoc_L (++)).
Qed.

Lemma dense_Some {A} (l : list (option A)) bs : dense l = Some bs → l = map Some bs.
Proof.
  revert bs. induction l as [|[x|] l IH]; intros bs H; simpl in H.
  - by inversion H.
  - destruct (dense l) as [bs'|]; [|done]. simpl in H. inversion H; subst.
    simpl. f_equal. by apply IH.
  - done.
Qed.

Lemma search_loop_hole q : ∀ rest i bs filtered,
  None ∈ rest → search_loop i rest q bs filtered = None.
Proof.
  induction rest as [|e rest IH]; intros i bs filtered Hin.
  { by apply elem_of_nil in Hin. }
  destruct e as [s|]; [|done]. cbn [search_loop]. apply IH.
  apply elem_of_cons in Hin as [?|?]; [done|done].
Qed.

(** X3. With the index in step with a store without holes, a blank query
    shows the whole store, and any other query shows, in store order,
    exactly the records whose lowercase composite of name, khr and usd
    contains the trimmed, lowercased query. *)
Theorem search_shows_matching_records (input : string) (st : state)
    (bs : list book) :
  indexed st → dense (books st) = Some bs →
  let q := toLowerCase (trim input) in
  search input st
  = if String.eqb q "" then Some (map Some bs)
    else Some (map Some (List.filter
           (λ b, includes
                   (toLowerCase (name b +:+ " " +:+ khr b +:+ " " +:+ usd b)) q)
           bs)).
Proof.
  intros Hidx Hd. cbn zeta. unfold search. rewrite or_empty_id.
  apply dense_Some in Hd. rewrite Hd. destruct (String.eqb _ ""); [done|].
  unfold indexed in Hidx. rewrite Hidx, Hd.
  rewrite (search_loop_dense _ bs [] []). cbn [app]. do 2 f_equal.
  apply filter_ext. intros b. by rewrite composite_lower.
Qed.

Lemma search_shows_matching_records_witness :
  search " BETA "
    (State [Some (Book "Alpha" "4000" "1.00"); Some (Book "Beta" "8000" "2.00")]
           [Some "alpha 4000 1.00"; Some "beta 8000 2.00"] None)
  = Some [Some (Book "Beta" "8000" "2.00")].
Proof.
  rewrite (search_shows_matching_records " BETA " _
             [Book "Alpha" "4000" "1.00"; Book "Beta" "8000" "2.00"]);
    [vm_compute; reflexivity|vm_compute; reflexivity|reflexivity].
Defined.

(** X4. Once an out-of-range edit has left a hole in the store, every
    non-blank query fails on the hole of the index: nothing is shown. *)
Theorem search_fails_on_hole (input : string) (st : state) (i : nat) :
  indexed st → books st !! i = Some None →
  toLowerCase (trim input) ≠ "" →
  search input st = None.
Proof.
  intros Hidx Hi Hq. unfold search. rewrite or_empty_id.
  apply String.eqb_neq in Hq. rewrite Hq. apply search_loop_hole.
  unfold indexed in Hidx. rewrite Hidx. unfold array_map.
  apply list_elem_of_lookup. exists i. by rewrite list_lookup_fmap, Hi.
Qed.

Lemma search_fails_on_hole_witness :
  search "alpha"
    (fst (saveFromModal "2" "Gamma" "1" "1"
            (State [Some (Book "Alpha" "4000" "1.00")] [Some "alpha 4000 1.00"] None)))
  = None.
Proof.
  apply (search_fails_on_hole "alpha" _ 1%nat);
    [reflexivity|vm_compute; reflexivity|vm_compute; discriminate].
Defined.

(** ** The CSV parser on plain lines and on exported text *)

Lemma split_on_from_nonempty sep cur s : split_on_from sep cur s ≠ [].
Proof.
  revert cur. induction s as [|c s IH]; intros cur; [done|]. simpl.
  by destruct (Ascii.eqb c sep).
Qed.

Lemma join_split_on_from sep cur s :
  join (String sep "") (split_on_from sep cur s) = cur +:+ s.
Proof.
  revert cur. induction s as [|c s IH]; intros cur.
  { by rewrite sapp_nil_r. }
  cbn [split_on_from]. destruct (Ascii.eqb c sep) eqn:Hc.
  - apply Ascii.eqb_eq in Hc as ->.
    rewrite join_cons by apply split_on_from_nonempty. by rewrite IH.
  - by rewrite IH, snoc_app.
Qed.

Lemma length_split_on_from sep cur s :
  length (split_on_from sep cur s) = S (count_char sep s).
Proof.
  revert cur. induction s as [|c s IH]; intros cur; [done|].
  cbn [split_on_from count_char]. destruct (Ascii.eqb c sep); simpl; by rewrite IH.
Qed.

Lemma fields_from_plain s : ∀ cur,
  has_char dquote s = false →
  fields_from false cur s = split_on_from comma cur s.
Proof.
  induction s as [|c s IH]; intros cur H; [done|].
  cbn [has_char] in H. apply orb_false_iff in H as [Hc Hs].
  cbn [fields_from split_on_from]. rewrite Hc, andb_true_r.
  destruct (Ascii.eqb c comma); by rewrite IH.
Qed.

(** X5. On a line without a double quote the parser is a plain split at
    commas: joining the fields with commas gives the line back, and there
    is one field more than there are commas. *)
Theorem parse_line_plain_split (line : string) :
  has_char dquote line = false →
  parse_line line = split_on comma line
  ∧ join "," (parse_line line) = line
  ∧ length (parse_line line) = S (count_char comma line).
Proof.
  intros H. rewrite parse_line_fields, fields_from_plain by done.
  split; [done|]. split.
  - apply (join_split_on_from comma "" line).
  - apply length_split_on_from.
Qed.

Lemma parse_line_plain_split_witness :
  parse_line "Alpha, 4000 ,,1.00" = ["Alpha"; " 4000 "; ""; "1.00"].
Proof.
  destruct (parse_line_plain_split "Alpha, 4000 ,,1.00" eq_refl) as [-> _].
  reflexivity.
Defined.

(** X6. The exported file reads back cell for cell: for a store without
    holes whose fields hold no line feed, [parseCSVText] of the exported
    text is the header row followed by one row of name, khr and usd per
    record, whatever quotes and commas the fields contain. *)
Theorem exported_text_parses_to_cells (bs : list book) (si : list (option string))
    (slot : option (list (option book))) :
  bs ≠ [] →
  Forall (λ b, has_char LF (name b) = false ∧ has_char LF (khr b) = false
               ∧ has_char LF (usd b) = false) bs →
  ∃ csv, exportCSV (State (map Some bs) si slot) = ExportFile csv
         ∧ parseCSVText csv
           = ["Book Title"; "Price/Unit"; "USD"]
             :: map (λ b, [name b; khr b; usd b]) bs.
Proof.
  intros Hne Hlf. unfold exportCSV. cbn [books]. rewrite length_map.
  replace (length bs =? 0)%nat with false
    by (symmetry; apply Nat.eqb_neq; destruct bs; simpl; [done|lia]).
  rewrite dense_map_Some. eexists. split; [done|].
  rewrite parseCSVText_csv_text.
  - unfold export_header. f_equal. apply map_ext. intros b. unfold export_row.
    by rewrite !or_empty_id.
  - done.
  - constructor; [split; [done|by repeat constructor]|].
    apply Forall_map. eapply Forall_impl; [exact Hlf|].
    intros b (Hn & Hk & Hu). simpl. split; [done|]. unfold export_row.
    rewrite !or_empty_id. by repeat constructor.
Qed.

Lemma exported_text_parses_to_cells_witness :
  ∃ csv,
    exportCSV (State [Some (Book "A, B" "4000" "")] [] None) = ExportFile csv
    ∧ parseCSVText csv
      = [["Book Title"; "Price/Unit"; "USD"]; ["A, B"; "4000"; ""]].
Proof.
  apply (exported_text_parses_to_cells [Book "A, B" "4000" ""] [] None).
  - discriminate.
  - repeat constructor.
Defined.

(** ** Import *)




Lemma last_column_from_none k header : ∀ idx,
  Forall (λ h, h ≠ k) header → last_column_from k header idx = None.
Proof.
  induction header as [|h hs IH]; intros idx H; [done|].
  inversion H as [|?? Hh Hhs]; subst. cbn [last_column_from].
  rewrite IH by done. apply String.eqb_neq in Hh. by rewrite Hh.
Qed.

Lemma last_column_from_last k header : ∀ idx j,
  header !! j = Some k → Forall (λ h, h ≠ k) (List.skipn (S j) header) →
  last_column_from k header idx = Some (idx + j)%nat.
Proof.
  induction header as [|h hs IH]; intros idx j Hj Hrest; [done|].
  cbn [last_column_from]. destruct j as [|j].
  - simpl in Hj. inversion Hj; subst. simpl in Hrest.
    rewrite last_column_from_none by done. rewrite String.eqb_refl.
    f_equal. lia.
  - simpl in Hj, Hrest. rewrite (IH (S idx) j) by done. f_equal. lia.
Qed.

(** X8. Header lookup of a CSV row: a key that is no header cell reads
    as undefined; a key that occurs in the header reads the trimmed cell
    under its last occurrence; a cell missing from a short row reads as
    the empty string. *)
Theorem row_object_reads_last_column (header r : list string) (k : string) (j : nat) :
  (Forall (λ h, h ≠ k) header → row_object header r !! k = None)
  ∧ (header !! j = Some k → Forall (λ h, h ≠ k) (List.skipn (S j) header) →
       row_object header r !! k = Some (cell r j)
       ∧ (∀ s, r !! j = Some s → cell r j = trim s)
       ∧ ((length r ≤ j)%nat → cell r j = "")).
Proof.
  unfold row_object. split.
  - intros H. by rewrite fill_object_lookup, last_column_from_none.
  - intros Hj Hrest. rewrite fill_object_lookup, (last_column_from_last k header 0 j) by done.
    split; [done|]. split; [apply cell_trim|].
    intros Hlen. unfold cell. by rewrite lookup_ge_None_2.
Qed.

Lemma row_object_reads_last_column_witness :
  row_object ["name"; "khr"; "name"] ["A"; " 1 "] !! "name" = Some ""
  ∧ row_object ["name"; "khr"; "name"] ["A"; " 1 "] !! "usd" = None.
Proof.
  destruct (row_object_reads_last_column ["name"; "khr"; "name"] ["A"; " 1 "] "name" 2)
    as [_ H].
  destruct (H eq_refl ltac:(constructor)) as (-> & _ & Hshort).
  split; [f_equal; apply Hshort; simpl; lia|].
  destruct (row_object_reads_last_column ["name"; "khr"; "name"] ["A"; " 1 "] "usd" 0)
    as [H0 _].
  apply H0. repeat constructor; discriminate.
Defined.

(** ** The store: persistence, bounds and what the modal stores *)

Lemma step_cases st o :
  step st o = st
  ∨ ∃ bs, step st o = buildSearchIndex (saveToStorage (set_books bs st)).
Proof.
  destruct o as [idx nm k u|i c|f]; cbn [step].
  - unfold saveFromModal. destruct (String.eqb (trim (or_empty nm)) ""); [by left|].
    right. by eexists.
  - unfold deleteBook. destruct c; [right; by eexists|by left].
  - unfold importFile. destruct f as [f|]; [|by left].
    destruct (endsWith _ _).
    + destruct (file_text f) as [txt|]; [|by left].
      destruct (length (parseCSVText txt) =? 0)%nat; [by left|right; by eexists].
    + destruct (file_sheet f); [right; by eexists|by left].
Qed.

Lemma failed_write_keeps_slot st o :
  stored (step_run st (o, false)) = stored st.
Proof.
  destruct o as [idx nm k u|i c|f]; cbn [step_run].
  - unfold saveFromModal_run. by destruct (String.eqb (trim (or_empty nm)) "").
  - unfold deleteBook_run. by destruct c.
  - unfold importFile_run. destruct f as [f|]; [|done].
    destruct (endsWith _ _).
    + destruct (file_text f) as [txt|]; [|done].
      by destruct (length (parseCSVText txt) =? 0)%nat.
    + by destruct (file_sheet f).
Qed.

(** X9. A change is saved when its write succeeds: an operation whose
    write succeeds either leaves the state as it is or ends with the
    persisted slot holding the store, and so does the bootstrap loader,
    hence a saved store stays saved through any sequence of operations
    whose writes succeed.  An operation whose write throws leaves the
    slot and the search index as they were, whatever it did to the
    store. *)
Theorem saved_when_the_write_succeeds :
  (∀ st o, step_run st (o, true) = st ∨ persisted (step_run st (o, true)))
  ∧ (∀ st o, stored (step_run st (o, false)) = stored st
             ∧ searchIndex (step_run st (o, false)) = searchIndex st)
  ∧ (∀ ok f st,
       fst (loadDefaultCSV_run ok f st) = st
       ∨ (if ok then persisted (fst (loadDefaultCSV_run ok f st))
          else stored (fst (loadDefaultCSV_run ok f st)) = stored st))
  ∧ (∀ ops st, Forall (λ o : op * bool, snd o = true) ops →
       persisted st → persisted (run_all ops st)).
Proof.
  assert (Hstep : ∀ st o, step_run st (o, true) = st ∨ persisted (step_run st (o, true))).
  { intros st o. rewrite step_run_ok.
    destruct (step_cases st o) as [?|[bs ->]]; [by left|by right]. }
  split; [exact Hstep|]. split; [|split].
  - intros st o. split; [apply failed_write_keeps_slot|apply failed_write_keeps_index].
  - intros ok [|[] [txt|]] st; try by left. unfold loadDefaultCSV_run.
    destruct (length (parseCSVText txt) <=? 1)%nat; [by left|].
    destruct (length (books st) =? 0)%nat; [|by left]. right. by destruct ok.
  - intros ops. induction ops as [|[o ok] ops IH]; intros st Hops Hst; [done|].
    inversion Hops as [|?? Hok Hops']; subst. cbn [snd] in Hok. subst ok.
    cbn [run_all fold_left]. apply IH; [done|].
    destruct (Hstep st o) as [->|?]; done.
Qed.

Lemma saved_when_the_write_succeeds_witness :
  persisted (run_all [(Save "" "Alpha" "4000" "1", true); (Delete 3 true, true);
                      (Import None, true)]
                     (State [] [] (Some []))).
Proof.
  destruct saved_when_the_write_succeeds as (_ & _ & _ & H).
  apply H; [repeat constructor|reflexivity].
Defined.

Lemma delete_beyond {A} (l : list A) i : (length l ≤ i)%nat → delete i l = l.
Proof.
  intros H. rewrite delete_take_drop, take_ge, drop_ge by lia. apply app_nil_r.
Qed.

(** X10. A confirmed delete within bounds shortens the store by one and
    moves every later record one position down; beyond the end it leaves
    the store as it is; a declined confirmation changes nothing. *)
Theorem deleteBook_shifts_down (i : nat) (st : state) :
  ((i < length (books st))%nat →
     length (books (deleteBook i true st)) = (length (books st) - 1)%nat
     ∧ (∀ j, (j < i)%nat → books (deleteBook i true st) !! j = books st !! j)
     ∧ (∀ j, (i ≤ j)%nat → books (deleteBook i true st) !! j = books st !! S j))
  ∧ ((length (books st) ≤ i)%nat → books (deleteBook i true st) = books st)
  ∧ deleteBook i false st = st.
Proof.
  cbn [deleteBook buildSearchIndex saveToStorage set_books books].
  split; [|split; [apply delete_beyond|done]].
  intros Hi. split; [apply length_delete; by apply lookup_lt_is_Some|].
  split; intros j Hj; [by apply list_lookup_delete_lt|by apply list_lookup_delete_ge].
Qed.

Lemma deleteBook_shifts_down_witness :
  books (deleteBook 0 true
           (State [Some (Book "Alpha" "4000" "1.00"); Some (Book "Beta" "8000" "2.00")]
                  [Some "alpha 4000 1.00"; Some "beta 8000 2.00"] None)) !! 0%nat
  = Some (Some (Book "Beta" "8000" "2.00"))
  ∧ books (deleteBook 5 true (State [Some (Book "Alpha" "4000" "1.00")] [] None))
    = [Some (Book "Alpha" "4000" "1.00")].
Proof.
  split.
  - destruct (deleteBook_shifts_down 0
      (State [Some (Book "Alpha" "4000" "1.00"); Some (Book "Beta" "8000" "2.00")]
             [Some "alpha 4000 1.00"; Some "beta 8000 2.00"] None)) as [H _].
    destruct (H ltac:(simpl; lia)) as (_ & _ & Hge).
    rewrite (Hge 0%nat) by lia. reflexivity.
  - destruct (deleteBook_shifts_down 5
      (State [Some (Book "Alpha" "4000" "1.00")] [] None)) as (_ & H & _).
    apply H. simpl. lia.
Defined.



Lemma cleanCurrency_no_quote_comma v :
  has_char dquote (cleanCurrency v) = false
  ∧ has_char comma (cleanCurrency v) = false.
Proof.
  assert (H : ∀ s,
    has_char dquote (trim (remove_if is_comma (remove_KHR (remove_if is_dquote s))))
      = false
    ∧ has_char comma (trim (remove_if is_comma (remove_KHR (remove_if is_dquote s))))
      = false).
  { intros s. split; apply has_char_trim.
    - apply has_char_remove_if_keeps, has_char_remove_KHR_keeps.
      by apply has_char_remove_if.
    - by apply has_char_remove_if. }
  destruct v; [done..|apply H|apply H].
Qed.

Lemma all_records_array_set P l i b :
  all_records P l → P b → all_records P (array_set l i b).
Proof.
  unfold all_records, array_set. intros Hl Hb.
  destruct (i <? length l)%nat; [by apply Forall_insert|].
  apply Forall_app. split; [done|]. apply Forall_app. split.
  - by apply Forall_replicate.
  - by constructor.
Qed.

Lemma entered_step st o :
  is_import o = false →
  all_records entered (books st) → all_records entered (books (step st o)).
Proof.
  intros Ho Hst. destruct o as [idx nm k u|i c|f]; [| |done]; cbn [step].
  - unfold saveFromModal. rewrite or_empty_id.
    destruct (String.eqb (trim nm) "") eqn:Hnm; [done|].
    cbn [fst buildSearchIndex saveToStorage set_books books].
    assert (He : entered (Book (trim nm) (cleanCurrency (Str k)) (formatUSD (Str u)))).
    { unfold entered. cbn [name khr].
      destruct (cleanCurrency_no_quote_comma (Str k)) as [Hq Hc].
      repeat split; [by apply String.eqb_neq|apply trim_idempotent|done|done|].
      apply cleanCurrency_trimmed. }
    destruct (String.eqb idx "").
    + by constructor.
    + unfold array_store. destruct (array_index (ToNumber idx)); [|done].
      by apply all_records_array_set.
  - unfold deleteBook. destruct c; [|done].
    cbn [buildSearchIndex saveToStorage set_books books]. by apply Forall_delete.
Qed.

(** X12. What the modal guarantees is kept: from a store whose records
    all have a non-empty trimmed name and a trimmed khr field free of
    double quotes and commas, any sequence of add, edit and delete
    operations leads to such a store again. *)
Theorem modal_keeps_records_entered (ops : list op) (st : state) :
  Forall (λ o, is_import o = false) ops →
  all_records entered (books st) →
  all_records entered (books (run ops st)).
Proof.
  revert st. induction ops as [|o ops IH]; intros st Hops Hst; [done|].
  inversion Hops as [|?? Ho Hops']; subst. cbn [run fold_left].
  apply IH; [done|]. by apply entered_step.
Qed.

Lemma modal_keeps_records_entered_witness :
  all_records entered
    (books (run [Save "" " Alpha " "4,000 KHR" "1"; Save "2" "Beta" "8000" "";
                 Delete 0 true]
                (State [] [] None))).
Proof.
  apply modal_keeps_records_entered.
  - repeat constructor.
  - constructor.
Defined.

Lemma no_holes_step st o :
  within_bounds st o → no_holes (books st) → no_holes (books (step st o)).
Proof.
  unfold no_holes. intros Hb Hst. destruct (step_cases st o) as [->|[bs E]]; [done|].
  destruct o as [idx nm k u|i c|f]; cbn [step] in *.
  - unfold saveFromModal in *. rewrite or_empty_id in *.
    destruct (String.eqb (trim nm) ""); [done|].
    cbn [fst buildSearchIndex saveToStorage set_books books].
    destruct (String.eqb_spec idx "") as [->|Hidx]; [by constructor|].
    cbn [within_bounds] in Hb. destruct Hb as [?|Hb]; [done|].
    unfold array_store. destruct (array_index (ToNumber idx)) as [i|]; [|done].
    unfold array_set. destruct (i <? length (books st))%nat eqn:Hi.
    + by apply Forall_insert.
    + apply Nat.ltb_ge in Hi. replace (i - length (books st))%nat with 0%nat by lia.
      apply Forall_app. split; [done|]. by repeat constructor.
  - unfold deleteBook. destruct c; [|done].
    cbn [buildSearchIndex saveToStorage set_books books]. by apply Forall_delete.
  - unfold importFile. destruct f as [f|]; [|done]. destruct (endsWith _ _).
    + destruct (file_text f) as [txt|]; [|done].
      destruct (length (parseCSVText txt) =? 0)%nat; [done|].
      cbn [fst postImportFinish buildSearchIndex saveToStorage set_books books].
      apply Forall_map, Forall_forall. by eexists.
    + destruct (file_sheet f); [|done].
      cbn [fst postImportFinish buildSearchIndex saveToStorage set_books books].
      apply Forall_map, Forall_forall. by eexists.
Qed.

Lemma no_holes_dense {A} (l : list (option A)) : no_holes l → ∃ bs, dense l = Some bs.
Proof.
  induction 1 as [|x l [b ->] Hl [bs IH]]; [by exists []|].
  exists (b :: bs). simpl. by rewrite IH.
Qed.

(** X13. Holes come only from edits beyond the end: an operation other
    than such an edit keeps a store without holes free of holes, and on a
    store without holes the export never fails, it either reports that
    there is nothing to export or produces the file. *)
Theorem only_far_edits_make_holes (st : state) (o : op) :
  no_holes (books st) →
  (within_bounds st o → no_holes (books (step st o)))
  ∧ exportCSV st ≠ ExportThrows.
Proof.
  intros Hst. split; [intros Hb; by apply no_holes_step|].
  unfold exportCSV. destruct (length (books st) =? 0)%nat; [done|].
  by destruct (no_holes_dense _ Hst) as [bs ->].
Qed.

Lemma only_far_edits_make_holes_witness :
  no_holes (books (step (State [Some (Book "Alpha" "4000" "1.00")] [] None)
                        (Save "1" "Beta" "8000" "2"))).
Proof.
  destruct (only_far_edits_make_holes
              (State [Some (Book "Alpha" "4000" "1.00")] [] None)
              (Save "1" "Beta" "8000" "2")) as [H _].
  - repeat constructor. by eexists.
  - apply H. right.
    replace (array_index (ToNumber "1")) with (Some 1%nat) by (vm_compute; reflexivity).
    simpl. lia.
Defined.

(** ** Parse failures of [formatUSD] *)

Lemma point_or_minus_facts c :
  is_point_or_minus c = true →
  is_digit c = false ∧ is_ws c = false ∧ (code c =? 43)%N = false
  ∧ Ascii.eqb "I" c = false.
Proof.
  unfold is_point_or_minus, is_digit, is_ws, in_range. intros H.
  assert (Hc : code c = 46%N ∨ code c = 45%N).
  { apply orb_true_iff in H as [H|H]; apply N.eqb_eq in H; auto. }
  assert (HI : Ascii.eqb "I" c = false).
  { apply Ascii.eqb_neq. intros <-. destruct Hc as [Hc|Hc]; by vm_compute in Hc. }
  split; [|split; [|split; [|done]]].
  - destruct Hc as [-> | ->]; done.
  - destruct Hc as [-> | ->]; done.
  - destruct Hc as [-> | ->]; done.
Qed.

Lemma read_digits_stuck u a n :
  all_chars is_point_or_minus u = true → read_digits u a n = (a, n, u).
Proof.
  destruct u as [|c r]; [done|]. cbn [all_chars read_digits]. intros H.
  apply andb_true_iff in H as [Hc _].
  by destruct (point_or_minus_facts c Hc) as (-> & _).
Qed.

Lemma read_decimal_stuck u :
  all_chars is_point_or_minus u = true → read_decimal u = None.
Proof.
  intros H. unfold read_decimal. rewrite read_digits_stuck by done.
  destruct u as [|c r]; [done|]. cbn [all_chars] in H.
  apply andb_true_iff in H as [_ Hr].
  destruct (code c =? 46)%N; [|done]. by rewrite read_digits_stuck.
Qed.

Lemma starts_with_Infinity_stuck u :
  all_chars is_point_or_minus u = true → starts_with "Infinity" u = false.
Proof.
  destruct u as [|c r]; [done|]. cbn [all_chars]. intros H.
  apply andb_true_iff in H as [Hc _].
  destruct (point_or_minus_facts c Hc) as (_ & _ & _ & HI).
  unfold starts_with. cbn [String.prefix].
  destruct (ascii_dec "I" c) as [E|E]; [|done].
  apply Ascii.eqb_neq in HI. done.
Qed.

Lemma parseFloat_stuck t :
  all_chars is_point_or_minus t = true → parseFloat t = S754_nan.
Proof.
  intros H. unfold parseFloat. destruct t as [|c r].
  { done. }
  pose proof H as H'. cbn [all_chars] in H'. apply andb_true_iff in H' as [Hc Hr].
  destruct (point_or_minus_facts c Hc) as (_ & Hws & Hplus & _).
  cbn [trimStart]. rewrite Hws. cbn [read_sign]. rewrite Hplus.
  destruct (code c =? 45)%N.
  - by rewrite starts_with_Infinity_stuck, read_decimal_stuck.
  - by rewrite starts_with_Infinity_stuck, read_decimal_stuck.
Qed.

Lemma strip_without_digits s :
  all_chars (λ c, negb (is_digit c)) s = true →
  all_chars is_point_or_minus
    (remove_if (λ c, negb (is_numeric_char c)) s) = true.
Proof.
  induction s as [|c s IH]; [done|]. cbn [all_chars remove_if]. intros H.
  apply andb_true_iff in H as [Hc Hs]. apply negb_true_iff in Hc.
  destruct (is_numeric_char c) eqn:E; cbn [negb]; [|by apply IH].
  cbn [all_chars]. rewrite IH, andb_true_r by done.
  unfold is_numeric_char in E. rewrite Hc in E. exact E.
Qed.

(** X14. A price text without any digit never becomes a number: for a
    string holding no digit [formatUSD] returns the empty string. *)
Theorem formatUSD_without_digit_is_empty (s : string) :
  all_chars (λ c, negb (is_digit c)) s = true → formatUSD (Str s) = "".
Proof.
  intros H. unfold formatUSD. cbn [to_string].
  by rewrite parseFloat_stuck by (by apply strip_without_digits).
Qed.

Lemma formatUSD_without_digit_is_empty_witness :
  formatUSD (Str "$ -.- KHR (Infinity)") = "".
Proof. apply formatUSD_without_digit_is_empty. vm_compute. reflexivity. Defined.

(** ** The two CSV mappers *)

(** X15. The bootstrap loader and the manual import map a row alike
    unless the khr value is only to be found under ['price (khr)']: when
    the ['price/unit'] or the ['khr'] column is filled, or ['price (khr)']
    is not, both mappers give the same record. *)
Theorem bootstrap_agrees_with_manual_import (header r : list string) :
  filled (column_value header r "price/unit")
  || filled (column_value header r "khr")
  || negb (filled (column_value header r "price (khr)")) = true →
  map_row_default header r = map_row_manual header r.
Proof.
  unfold map_row_default, map_row_manual. rewrite !prop_row_object.
  destruct (column_value header r "price/unit") as [[|??]|];
    destruct (column_value header r "khr") as [[|??]|];
    destruct (column_value header r "price (khr)") as [[|??]|]; done.
Qed.

Lemma bootstrap_agrees_with_manual_import_witness :
  map_row_default ["book title"; "price/unit"; "usd"] ["Alpha"; "4,000 KHR"; ""]
  = Book "Alpha" "4000" "1.00".
Proof.
  rewrite (bootstrap_agrees_with_manual_import
             ["book title"; "price/unit"; "usd"] ["Alpha"; "4,000 KHR"; ""]);
    vm_compute; reflexivity.
Defined.

(** ** The plain loader of [#loadBtn] *)

Lemma split_lines_from_no_CR s : ∀ cur,
  has_char CR s = false → split_lines_from cur s = split_on_from LF cur s.
Proof.
  induction s as [|c s IH]; intros cur H; [done|].
  cbn [has_char] in H. apply orb_false_iff in H as [Hc Hs].
  cbn [split_lines_from split_on_from]. destruct (Ascii.eqb c LF); [by rewrite IH|].
  rewrite Hc. cbn [andb]. rewrite IH by done. by destruct s.
Qed.

Lemma split_on_from_keeps c sep s : ∀ cur,
  has_char c cur = false → has_char c s = false →
  Forall (λ l, has_char c l = false) (split_on_from sep cur s).
Proof.
  induction s as [|a s IH]; intros cur Hcur Hs; [by constructor|].
  cbn [has_char] in Hs. apply orb_false_iff in Hs as [Ha Hs].
  cbn [split_on_from]. destruct (Ascii.eqb a sep).
  - constructor; [done|]. by apply IH.
  - apply IH; [|done]. by rewrite has_char_snoc, Hcur, Ha.
Qed.

Lemma split_on_from_single sep s : ∀ cur,
  has_char sep s = false → split_on_from sep cur s = [cur +:+ s].
Proof.
  induction s as [|a s IH]; intros cur H; [by rewrite sapp_nil_r|].
  cbn [has_char] in H. apply orb_false_iff in H as [Ha Hs].
  cbn [split_on_from]. rewrite Ha, IH by done. by rewrite snoc_app.
Qed.

Lemma all_ws_no_comma s : all_ws s = true → has_char comma s = false.
Proof.
  induction s as [|c s IH]; [done|]. cbn [all_ws has_char]. intros H.
  apply andb_true_iff in H as [Hc Hs]. rewrite IH, orb_false_r by done.
  apply Ascii.eqb_neq. intros ->. done.
Qed.

Lemma blank_line_shows_nothing l :
  nonblank l = false → legacy_row (split_on comma l) = None.
Proof.
  unfold nonblank. intros H. apply negb_false_iff, String.eqb_eq in H.
  destruct (trim_is_trim_of l) as (lw & rw & Hl & Hlw & Hrw & _).
  rewrite H, sapp_nil_l in Hl.
  assert (Hc : has_char comma l = false).
  { apply all_ws_no_comma. by rewrite Hl, all_ws_sapp, Hlw, Hrw. }
  unfold split_on. by rewrite split_on_from_single.
Qed.

Lemma legacy_rows_of_lines ls :
  Forall (λ l, has_char dquote l = false) ls →
  omap (λ row, legacy_row (split_on comma row)) ls
  = omap legacy_row (map parse_line (List.filter nonblank ls)).
Proof.
  induction 1 as [|l ls Hl Hls IH]; [done|]. cbn [omap list_omap List.filter].
  destruct (nonblank l) eqn:Hb.
  - cbn [map omap list_omap]. rewrite parse_line_fields, fields_from_plain by done.
    fold (split_on comma l). by rewrite IH.
  - by rewrite blank_line_shows_nothing, IH.
Qed.

(** X16. The plain loader and the store import read the same cells: on a
    text without double quotes and carriage returns whose first line is
    not blank, the table rows the plain loader writes are the first three
    raw cells of those data rows of [parseCSVText] that have at least
    three cells. *)
Theorem plain_loader_matches_parser (text : string) :
  has_char dquote text = false → has_char CR text = false →
  nonblank (hd "" (split_on LF text)) = true →
  legacy_table text = omap legacy_row (List.tl (parseCSVText text)).
Proof.
  intros Hq Hcr Hfirst. unfold legacy_table, parseCSVText, split_lines.
  rewrite split_lines_from_no_CR by done. fold (split_on LF text).
  pose proof (split_on_from_keeps dquote LF text "" eq_refl Hq) as Hall.
  fold (split_on LF text) in Hall.
  destruct (split_on LF text) as [|l0 ls]; [done|].
  cbn [hd] in Hfirst. cbn [List.filter List.tl]. rewrite Hfirst. cbn [map List.tl].
  inversion Hall; subst. by apply legacy_rows_of_lines.
Qed.

Lemma plain_loader_matches_parser_witness :
  legacy_table ("Title,KHR,USD" +:+ String LF "Alpha,4000,1.00"
                +:+ String LF "  " +:+ String LF "Beta,8000")
  = [("Alpha", "4000", "1.00")].
Proof.
  rewrite plain_loader_matches_parser; vm_compute; reflexivity.
Defined.

(** ** The live conversion of [#priceKHR] *)

Lemma all_chars_app p a b : all_chars p (a +:+ b) = all_chars p a && all_chars p b.
Proof.
  induction a as [|c a IH]; [done|]. rewrite sapp_cons. cbn [all_chars].
  by rewrite IH, andb_assoc.
Qed.

Lemma all_chars_remove_if p q s :
  all_chars p s = true → all_chars p (remove_if q s) = true.
Proof.
  induction s as [|c s IH]; [done|]. cbn [all_chars remove_if]. intros H.
  apply andb_true_iff in H as [Hc Hs]. destruct (q c); [by apply IH|].
  cbn [all_chars]. by rewrite Hc, IH.
Qed.

Lemma all_chars_trimStart p s :
  all_chars p s = true → all_chars p (trimStart s) = true.
Proof.
  intros H. destruct (trimStart_split s) as (l & Hl & _).
  rewrite Hl, all_chars_app in H. by apply andb_true_iff in H as [_ H].
Qed.

Lemma all_chars_trim p s : all_chars p s = true → all_chars p (trim s) = true.
Proof.
  intros H. destruct (trim_is_trim_of s) as (l & r & Hs & _).
  rewrite Hs, !all_chars_app in H.
  apply andb_true_iff in H as [_ H]. by apply andb_true_iff in H as [H _].
Qed.

Lemma read_digits_no_digit u a n :
  all_chars (λ c, negb (is_digit c)) u = true → read_digits u a n = (a, n, u).
Proof.
  destruct u as [|c r]; [done|]. cbn [all_chars read_digits]. intros H.
  apply andb_true_iff in H as [Hc _]. apply negb_true_iff in Hc. by rewrite Hc.
Qed.

Lemma read_decimal_no_digit u :
  all_chars (λ c, negb (is_digit c)) u = true → read_decimal u = None.
Proof.
  intros H. unfold read_decimal. rewrite read_digits_no_digit by done.
  destruct u as [|c r]; [done|]. cbn [all_chars] in H.
  apply andb_true_iff in H as [_ Hr].
  destruct (code c =? 46)%N; [|done]. by rewrite read_digits_no_digit.
Qed.

Lemma read_sign_no_digit u :
  all_chars (λ c, negb (is_digit c)) u = true →
  all_chars (λ c, negb (is_digit c)) (snd (read_sign u)) = true.
Proof.
  destruct u as [|c r]; [done|]. intros H. cbn [read_sign].
  pose proof H as H'. cbn [all_chars] in H'. apply andb_true_iff in H' as [_ Hr].
  destruct (code c =? 45)%N; [done|]. by destruct (code c =? 43)%N.
Qed.

Lemma parseFloat_no_digit t :
  all_chars (λ c, negb (is_digit c)) t = true →
  parseFloat t = S754_nan ∨ ∃ neg, parseFloat t = S754_infinity neg.
Proof.
  intros H. unfold parseFloat.
  pose proof (read_sign_no_digit _ (all_chars_trimStart _ _ H)) as Hr.
  destruct (read_sign (trimStart t)) as [neg r]. cbn [snd] in Hr.
  destruct (starts_with "Infinity" r); [right; by eexists|].
  left. by rewrite read_decimal_no_digit.
Qed.

(** X17. Typing a KHR text without any digit sets the USD field to
    ['0.00'], unless the text spells an infinity, which is shown as
    such: the live conversion never leaves the field empty there, unlike
    [formatUSD] on the same text. *)
Theorem priceKHR_without_digit_shows_zero (s : string) :
  all_chars (λ c, negb (is_digit c)) s = true →
  onPriceKHRInput s = "0.00"
  ∨ onPriceKHRInput s = "Infinity" ∨ onPriceKHRInput s = "-Infinity".
Proof.
  intros H. unfold onPriceKHRInput. rewrite or_empty_id.
  destruct (parseFloat_no_digit (trim (remove_if is_comma s))) as [->|[neg ->]].
  - by apply all_chars_trim, all_chars_remove_if.
  - by left.
  - right. destruct neg; [by right|by left].
Qed.

Lemma priceKHR_without_digit_shows_zero_witness :
  onPriceKHRInput "abc" = "0.00"
  ∨ onPriceKHRInput "abc" = "Infinity" ∨ onPriceKHRInput "abc" = "-Infinity".
Proof. apply priceKHR_without_digit_shows_zero. vm_compute. reflexivity. Defined.

(** ** Indices through the hidden edit field *)

Lemma digits2_pos_log2 q : Zpos (digits2_pos q) = (Z.log2 (Zpos q) + 1)%Z.
Proof.
  assert (Hs : ∀ r, digits2_pos r = Pos.size r).
  { induction r as [r IH|r IH|]; simpl; by rewrite ?IH. }
  rewrite Hs. destruct q; simpl; lia.
Qed.

Lemma Zdigits2_mul_pow2 q k :
  (0 ≤ k)%Z → Zdigits2 (Zpos q * 2 ^ k) = (Zpos (digits2_pos q) + k)%Z.
Proof.
  intros Hk. assert (0 < 2 ^ k)%Z by (apply Z.pow_pos_nonneg; lia).
  destruct (Zpos q * 2 ^ k)%Z as [|m|m] eqn:E; [lia| |lia].
  cbn [Zdigits2]. rewrite !digits2_pos_log2, <- E, Z.log2_mul_pow2 by lia. lia.
Qed.

Lemma div_eucl_1 a : Z.div_eucl a 1 = (a, 0%Z).
Proof.
  pose proof (Z.div_1_r a) as Hd. pose proof (Z.mod_1_r a) as Hm.
  unfold Z.div, Z.modulo in Hd, Hm. destruct (Z.div_eucl a 1). simpl in *. by subst.
Qed.

Lemma digits_below_2_32 p : (Zpos p < 2 ^ 32)%Z → (1 ≤ Zpos (digits2_pos p) ≤ 32)%Z.
Proof.
  intros H. rewrite digits2_pos_log2.
  pose proof (Z.log2_nonneg (Zpos p)).
  assert (Z.log2 (Zpos p) < 32)%Z by (apply Z.log2_lt_pow2; lia). lia.
Qed.

Lemma SFdiv_core_int p :
  (Zpos p < 2 ^ 32)%Z →
  SFdiv_core_binary 53 1024 (Zpos p) 0 1 0
  = ((Zpos p * 2 ^ (54 - Zpos (digits2_pos p)))%Z,
     (Zpos (digits2_pos p) - 54)%Z, loc_Exact).
Proof.
  intros Hp. pose proof (digits_below_2_32 p Hp) as Hd.
  unfold SFdiv_core_binary. cbn [Zdigits2 digits2_pos].
  set (d := Zpos (digits2_pos p)) in *.
  replace (Z.min (fexp 53 1024 (d + 0 - (1 + 0))) (0 - 0))%Z with (d - 54)%Z
    by (unfold fexp, emin; lia).
  replace (0 - 0 - (d - 54))%Z with (54 - d)%Z by lia.
  destruct (54 - d)%Z as [|sp|sp] eqn:E; [lia| |lia].
  rewrite Z.shiftl_mul_pow2 by lia. by rewrite div_eucl_1.
Qed.

Lemma binary_round_aux_int p :
  (Zpos p < 2 ^ 32)%Z →
  binary_round_aux 53 1024 false
    (Zpos p * 2 ^ (54 - Zpos (digits2_pos p))) (Zpos (digits2_pos p) - 54) loc_Exact
  = S754_finite false (Z.to_pos (Zpos p * 2 ^ (53 - Zpos (digits2_pos p))))
      (Zpos (digits2_pos p) - 53).
Proof.
  intros Hp. pose proof (digits_below_2_32 p Hp) as Hd.
  set (d := Zpos (digits2_pos p)) in *.
  assert (Hpow : (0 < 2 ^ (53 - d))%Z) by (apply Z.pow_pos_nonneg; lia).
  set (q := Z.to_pos (Zpos p * 2 ^ (53 - d))).
  assert (Hq : Zpos q = (Zpos p * 2 ^ (53 - d))%Z) by (unfold q; lia).
  assert (Hm : (Zpos p * 2 ^ (54 - d))%Z = Zpos q~0).
  { replace (54 - d)%Z with (Z.succ (53 - d)) by lia.
    rewrite Z.pow_succ_r by lia. lia. }
  assert (Hdq : Zdigits2 (Zpos q) = 53%Z).
  { rewrite Hq, Zdigits2_mul_pow2 by lia. fold d. lia. }
  rewrite Hm. unfold binary_round_aux.
  assert (H1 : shr_fexp 53 1024 (Zpos q~0) (d - 54) loc_Exact
               = (Build_shr_record (Zpos q) false false, (d - 53)%Z)).
  { unfold shr_fexp. cbn [Zdigits2 digits2_pos] in *.
    replace (fexp 53 1024 (Zpos (Pos.succ (digits2_pos q)) + (d - 54)) - (d - 54))%Z
      with 1%Z by (unfold fexp, emin; lia).
    cbn. f_equal. lia. }
  rewrite H1. cbn [shr_m loc_of_shr_record round_nearest_even].
  assert (H2 : shr_fexp 53 1024 (Zpos q) (d - 53) loc_Exact
               = (Build_shr_record (Zpos q) false false, (d - 53)%Z)).
  { unfold shr_fexp. rewrite Hdq.
    replace (fexp 53 1024 (53 + (d - 53)) - (d - 53))%Z with 0%Z
      by (unfold fexp, emin; lia).
    done. }
  rewrite H2. cbn [shr_m].
  replace (d - 53 <=? 1024 - 53)%Z with true by (symmetry; apply Z.leb_le; lia).
  done.
Qed.

Lemma array_index_of_nat (i : nat) :
  (Z.of_nat i < 2 ^ 32 - 1)%Z →
  array_index (num_of_decimal false (Z.of_nat i) 0) = Some i.
Proof.
  intros Hi. destruct (Z.of_nat i) as [|p|p] eqn:E; [| |lia].
  { cbn. f_equal. lia. }
  assert (Hp : (Zpos p < 2 ^ 32)%Z) by lia.
  pose proof (digits_below_2_32 p Hp) as Hd.
  unfold num_of_decimal, num_div.
  replace (Z.to_pos (Zpos p * 10 ^ 0)) with p by (rewrite Z.pow_0_r; lia).
  unfold SFdiv. rewrite SFdiv_core_int by done. cbn [xorb].
  rewrite binary_round_aux_int by done.
  set (d := Zpos (digits2_pos p)) in *.
  assert (Hpow : (0 < 2 ^ (53 - d))%Z) by (apply Z.pow_pos_nonneg; lia).
  unfold array_index, ratio_of.
  replace (0 <=? d - 53)%Z with false by (symmetry; apply Z.leb_gt; lia).
  replace (- (d - 53))%Z with (53 - d)%Z by lia.
  rewrite Z2Pos.id by lia.
  rewrite Z.mod_mul, Z.div_mul by lia. rewrite Z.eqb_refl. cbn [andb].
  replace (Zpos p <? 2 ^ 32 - 1)%Z with true by (symmetry; apply Z.ltb_lt; lia).
  f_equal. lia.
Qed.

Lemma read_digits_uint_acc d : ∀ p n,
  read_digits (NilEmpty.string_of_uint d) (Zpos p) n
  = (Zpos (Pos.of_uint_acc d p),
     (n + Z.of_nat (String.length (NilEmpty.string_of_uint d)))%Z, "").
Proof.
  induction d as [|d IH|d IH|d IH|d IH|d IH|d IH|d IH|d IH|d IH|d IH]; intros p n;
    cbn [NilEmpty.string_of_uint Pos.of_uint_acc read_digits String.length];
    [f_equal; f_equal; lia|..];
    (match goal with
     | |- context [is_digit ?c] => change (is_digit c) with true
     end; cbv iota;
     match goal with
     | |- context [digit_val ?c] =>
         let v := eval vm_compute in (digit_val c) in change (digit_val c) with v
     end;
     match goal with
     | |- read_digits _ ?a ?k = _ =>
         match type of (IH xH 0%Z) with
         | _ = (Zpos (Pos.of_uint_acc _ _), _, _) => idtac
         end
     end).
  all: match goal with
       | |- read_digits _ ?a ?k = (Zpos (Pos.of_uint_acc _ ?acc), _, _) =>
           replace a with (Zpos acc) by lia; rewrite IH; f_equal; f_equal; lia
       end.
Qed.

Lemma read_digits_uint d : ∀ n,
  read_digits (NilEmpty.string_of_uint d) 0 n
  = (Z.of_N (Pos.of_uint d),
     (n + Z.of_nat (String.length (NilEmpty.string_of_uint d)))%Z, "").
Proof.
  induction d as [|d IH|d IH|d IH|d IH|d IH|d IH|d IH|d IH|d IH|d IH]; intros n;
    cbn [NilEmpty.string_of_uint Pos.of_uint read_digits String.length];
    [f_equal; f_equal; lia|..];
    (match goal with
     | |- context [is_digit ?c] => change (is_digit c) with true
     end; cbv iota;
     match goal with
     | |- context [digit_val ?c] =>
         let v := eval vm_compute in (digit_val c) in change (digit_val c) with v
     end).
  { change (10 * 0 + 0)%Z with 0%Z. rewrite IH. f_equal. f_equal. lia. }
  all: match goal with
       | |- read_digits _ ?a ?k = (Z.of_N (Npos (Pos.of_uint_acc _ ?acc)), _, _) =>
           change a with (Zpos acc); rewrite read_digits_uint_acc;
           f_equal; f_equal; lia
       end.
Qed.

Lemma read_digits_digits_of z :
  (0 ≤ z)%Z →
  read_digits (digits_of z) 0 0
  = (z, Z.of_nat (String.length (digits_of z)), "").
Proof.
  intros Hz. unfold digits_of. rewrite read_digits_uint.
  assert (H : Pos.of_uint (N.to_uint (Z.to_N z)) = Z.to_N z).
  { destruct (Z.to_N z) as [|p]; [done|]. apply DecimalPos.Unsigned.of_to. }
  rewrite H. f_equal. f_equal. lia.
Qed.

Lemma is_digit_facts c :
  is_digit c = true →
  is_ws c = false ∧ (code c =? 45)%N = false ∧ (code c =? 43)%N = false
  ∧ letter_ci 88 c = false ∧ letter_ci 79 c = false ∧ letter_ci 66 c = false
  ∧ Ascii.eqb c "I" = false.
Proof.
  unfold is_digit, is_ws, letter_ci, in_range. intros H.
  apply andb_true_iff in H as [H1 H2]. apply N.leb_le in H1, H2.
  assert (HI : Ascii.eqb c "I" = false).
  { apply Ascii.eqb_neq. intros ->. vm_compute in H2. done. }
  repeat split; try done;
    repeat (apply orb_false_iff; split);
    try (apply N.eqb_neq; lia);
    try (apply andb_false_iff; (left; apply N.leb_gt; lia) || (right; apply N.leb_gt; lia)).
Qed.

Lemma all_digits_ends t : all_digits t = true → ends_ws t = false.
Proof.
  induction t as [|c t IH]; [done|]. cbn [all_digits ends_ws]. intros H.
  apply andb_true_iff in H as [Hc Ht]. destruct t; [|by apply IH].
  by destruct (is_digit_facts c Hc) as (-> & _).
Qed.

Lemma ToNumber_digits_of z :
  (0 ≤ z)%Z → ToNumber (digits_of z) = num_of_decimal false z 0.
Proof.
  intros Hz. pose proof (read_digits_digits_of z Hz) as Hr.
  pose proof (digits_of_digits z) as Hd. pose proof (digits_of_nonempty z) as Hne.
  destruct (digits_of z) as [|c r] eqn:E; [done|].
  pose proof Hd as Hd'. cbn [all_digits] in Hd'. apply andb_true_iff in Hd' as [Hc Hr'].
  destruct (is_digit_facts c Hc) as (Hws & H45 & H43 & _ & _ & _ & HI).
  unfold ToNumber.
  assert (Ht : trim (String c r) = String c r).
  { unfold trim. rewrite trimStart_fixed by (by cbn [starts_ws]).
    by apply trimEnd_fixed, all_digits_ends. }
  rewrite Ht.
  assert (Hrad : radix_literal (String c r) = None).
  { unfold radix_literal. destruct r as [|x [|y r2]]; [done..|].
    cbn [all_digits] in Hr'. apply andb_true_iff in Hr' as [Hx _].
    destruct (is_digit_facts x Hx) as (_ & _ & _ & -> & -> & -> & _).
    by destruct (code c =? 48)%N. }
  rewrite Hrad. cbn [read_sign]. rewrite H45, H43.
  assert (HInf : String.eqb (String c r) "Infinity" = false).
  { cbn [String.eqb]. by rewrite HI. }
  rewrite HInf. unfold read_decimal. rewrite Hr. cbn [read_exponent].
  replace (Z.of_nat (String.length (String c r)) + 0 =? 0)%Z with false
    by (symmetry; apply Z.eqb_neq; simpl; lia).
  done.
Qed.

Lemma index_text_denotes (i : nat) :
  (Z.of_nat i < 2 ^ 32 - 1)%Z →
  index_text i ≠ "" ∧ array_index (ToNumber (index_text i)) = Some i.
Proof.
  intros Hi. unfold index_text. split; [apply digits_of_nonempty|].
  rewrite ToNumber_digits_of by lia. by apply array_index_of_nat.
Qed.

Lemma element_Some {A} (l : list (option A)) i b :
  l !! i = Some (Some b) → element l i = Some b.
Proof. unfold element. by intros ->. Qed.

(** X18. The store position survives the hidden edit field: for a
    position [i] holding a record, [openEdit(i)] shows the dialog with
    what the inputs hold of the record's fields, and, the index field
    holding the digits of [i], a save with a non-empty name replaces
    exactly the record at [i], leaving the length and every other
    position as they were.  On a hole or beyond the end [openEdit] leaves
    the dialog as it is.  (On a filtered table the number a rendered row
    carries is its position in the filtered list.) *)
Theorem edit_replaces_the_opened_record (held : input_id → string → string)
    (i : nat) (st : state) (m : modal) (b : book) (nm k u : string) :
  (books st !! i = Some (Some b) → (Z.of_nat i < 2 ^ 32 - 1)%Z →
   held EditIndexInput (index_text i) = index_text i → trim nm ≠ "" →
     let m' := openEdit held i st m in
     shown m' = true ∧ bookName m' = held BookNameInput (name b)
     ∧ priceKHR m' = held PriceKHRInput (khr b)
     ∧ priceUSD m' = held PriceUSDInput (usd b)
     ∧ books (fst (saveFromModal (editIndex m') nm k u st))
       = <[i := Some (Book (trim nm) (cleanCurrency (Str k)) (formatUSD (Str u)))]>
           (books st))
  ∧ (element (books st) i = None → openEdit held i st m = m).
Proof.
  split.
  - intros Hb Hi Hheld Hnm. cbn zeta. unfold openEdit.
    rewrite (element_Some _ _ _ Hb).
    cbn [openModal shown bookName priceKHR priceUSD editIndex].
    rewrite !or_empty_id, Hheld. repeat split; try done.
    destruct (index_text_denotes i Hi) as [Hne Hidx].
    rewrite saveFromModal_edit by done.
    cbn [fst buildSearchIndex saveToStorage set_books books].
    unfold array_store. rewrite Hidx. unfold array_set.
    apply lookup_lt_Some in Hb. apply Nat.ltb_lt in Hb. by rewrite Hb.
  - unfold openEdit. by intros ->.
Qed.

Lemma edit_replaces_the_opened_record_witness :
  let st := State [Some (Book "Alpha" "4000" "1.00"); Some (Book "Beta" "8000" "2.00")]
                  [Some "alpha 4000 1.00"; Some "beta 8000 2.00"] None in
  books (fst (saveFromModal
                (editIndex (openEdit text_inputs 1 st (Modal false "" "" "" "" "")))
                "Beta 2" "9,000" "2.25" st))
  = [Some (Book "Alpha" "4000" "1.00"); Some (Book "Beta 2" "9000" "2.25")].
Proof.
  cbn zeta.
  destruct (edit_replaces_the_opened_record text_inputs 1
    (State [Some (Book "Alpha" "4000" "1.00"); Some (Book "Beta" "8000" "2.00")]
           [Some "alpha 4000 1.00"; Some "beta 8000 2.00"] None)
    (Modal false "" "" "" "" "") (Book "Beta" "8000" "2.00") "Beta 2" "9,000" "2.25")
    as [H _].
  destruct (H eq_refl ltac:(vm_compute; reflexivity) eq_refl
              ltac:(vm_compute; discriminate))
    as (_ & _ & _ & _ & ->).
  vm_compute. reflexivity.
Defined.

(** X19. Opening a record and saving it untouched changes nothing when
    the inputs hold the record's fields as they are and the record is
    already in the form the dialog stores: a non-empty trimmed name, khr
    a fixed point of [cleanCurrency] and usd a fixed point of
    [formatUSD]. *)
Theorem untouched_edit_keeps_store (held : input_id → string → string)
    (i : nat) (st : state) (m : modal) (b : book) :
  books st !! i = Some (Some b) → (Z.of_nat i < 2 ^ 32 - 1)%Z →
  held EditIndexInput (index_text i) = index_text i →
  held BookNameInput (name b) = name b →
  held PriceKHRInput (khr b) = khr b →
  held PriceUSDInput (usd b) = usd b →
  name b ≠ "" → trim (name b) = name b →
  cleanCurrency (Str (khr b)) = khr b → formatUSD (Str (usd b)) = usd b →
  let m' := openEdit held i st m in
  books (fst (saveFromModal (editIndex m') (bookName m') (priceKHR m')
                            (priceUSD m') st))
  = books st.
Proof.
  intros Hb Hi Hhi Hhn Hhk Hhu Hn Ht Hk Hu. cbn zeta. unfold openEdit.
  rewrite (element_Some _ _ _ Hb).
  cbn [openModal shown bookName priceKHR priceUSD editIndex].
  rewrite !or_empty_id, Hhi, Hhn, Hhk, Hhu.
  destruct (index_text_denotes i Hi) as [Hne Hidx].
  rewrite saveFromModal_edit by (by rewrite ?Ht).
  cbn [fst buildSearchIndex saveToStorage set_books books].
  unfold array_store. rewrite Hidx. unfold array_set.
  pose proof (lookup_lt_Some _ _ _ Hb) as Hlt. apply Nat.ltb_lt in Hlt.
  rewrite Hlt, Ht, Hk, Hu. apply list_insert_id. by destruct b.
Qed.

Lemma untouched_edit_keeps_store_witness :
  let st := State [Some (Book "Alpha" "4000" "1.00"); Some (Book "Beta" "8000" "2.00")]
                  [Some "alpha 4000 1.00"; Some "beta 8000 2.00"] None in
  let m' := openEdit text_inputs 0 st (Modal false "" "" "" "" "") in
  books (fst (saveFromModal (editIndex m') (bookName m') (priceKHR m')
                            (priceUSD m') st))
  = books st.
Proof.
  apply (untouched_edit_keeps_store text_inputs 0 _ _ (Book "Alpha" "4000" "1.00"));
    vm_compute; (reflexivity || discriminate).
Defined.
